(** * IFC-to-Fragments backend: the upload / convert / clean-up lifecycle

    A shallow embedding of the TypeScript sources

    - [src/types/index.ts]              (options and result),
    - [src/services/ifc-converter.ts]   (the converter service, in the
                                         revision that registers the
                                         property classes),
    - [src/utils/file-utils.ts]         (staging-file helpers),
    - [src/middleware/error-handler.ts] (fault translation),
    - [src/routes/convert.ts]           (the router, in its two revisions),
    - [src/app.ts]                      (routes and global error handler),

    followed by the properties of the request lifecycle.

    Conventions.  A JavaScript string is a [string]; [toLowerCase] is
    modelled on the ASCII letters.  A [Uint8Array] is a [list byte].
    A mutable object is a record threaded through the functions that
    mutate it.  A promise that rejects and a statement that throws are
    both [Throw]; code is run to completion in program order, one
    request at a time.  What the sources import without defining it (the
    conversion engine, [fs], multer, the clock) is a parameter or a
    small model, marked as such. *)

From Stdlib Require Import ZArith String Ascii List DecimalString.
From Stdlib Require DecimalPos DecimalZ.
From stdpp Require Import gmap strings.
Import ListNotations.

Local Open Scope string_scope.
Local Open Scope Z_scope.

(** ** JavaScript built-ins used by the sources *)

Module Js.

(** What a [throw] or a rejected promise delivers. *)
Inductive Result (E A : Type) : Type :=
| Ok (a : A)
| Throw (e : E).
Arguments Ok {E A} a.
Arguments Throw {E A} e.

Definition toLowerCaseChar (c : ascii) : ascii :=
  let n := nat_of_ascii c in
  if ((65 <=? n) && (n <=? 90))%nat then ascii_of_nat (n + 32) else c.

(** [s.toLowerCase()] *)
Fixpoint toLowerCase (s : string) : string :=
  match s with
  | EmptyString => EmptyString
  | String c s' => String (toLowerCaseChar c) (toLowerCase s')
  end.

(** [s.startsWith(p)] *)
Fixpoint startsWith (s p : string) : bool :=
  match p, s with
  | EmptyString, _ => true
  | String _ _, EmptyString => false
  | String a p', String b s' => if Ascii.eqb a b then startsWith s' p' else false
  end.

(** [s.slice(n)] for [0 <= n] *)
Fixpoint drop (n : nat) (s : string) : string :=
  match n, s with
  | O, _ => s
  | S _, EmptyString => EmptyString
  | S n', String _ s' => drop n' s'
  end.

(** [s.includes(p)] *)
Fixpoint includes (s p : string) : bool :=
  startsWith s p
  || match s with
     | EmptyString => false
     | String _ s' => includes s' p
     end.

(** [s.endsWith(p)] *)
Definition endsWith (s p : string) : bool :=
  (String.length p <=? String.length s)%nat
  && String.eqb (drop (String.length s - String.length p) s) p.

(** [s.replace(pat, rep)] with a string pattern: only the first
    occurrence of [pat] is replaced, the comparison is exact (case
    sensitive).  [rep] holds no [$] pattern in the sources. *)
Fixpoint replace (s pat rep : string) : string :=
  if startsWith s pat then rep ++ drop (String.length pat) s
  else match s with
       | EmptyString => EmptyString
       | String c s' => String c (replace s' pat rep)
       end.

(** [n.toString()] and the interpolation of an integer. *)
Definition toString (n : Z) : string := NilZero.string_of_int (Z.to_int n).

(** Truthiness of a string: [""] is falsy. *)
Definition truthy (s : string) : bool := negb (String.eqb s "").

(** [a || b] where [a] is a possibly undefined string. *)
Definition or_else (a : option string) (b : string) : string :=
  match a with
  | Some s => if truthy s then s else b
  | None => b
  end.

(** The double-quote character, for template literals that contain it. *)
Definition dquote : string := String (ascii_of_nat 34) EmptyString.

(** JSON values, as [JSON.stringify] and [res.json] see them. *)
#[local] Set Warnings "-register-all".
Inductive Json : Type :=
| JStr (s : string)
| JNum (n : Z)
| JBool (b : bool)
| JArr (items : list Json)
| JObj (fields : list (string * Json)).

(** An object literal: a property whose value is [undefined] is not
    serialised. *)
Fixpoint object (props : list (string * option Json)) : list (string * Json) :=
  match props with
  | [] => []
  | (k, Some v) :: rest => (k, v) :: object rest
  | (_, None) :: rest => object rest
  end.

(** [o[k]] on a serialised object. *)
Fixpoint get (k : string) (fields : list (string * Json)) : option Json :=
  match fields with
  | [] => None
  | (k', v) :: rest => if String.eqb k k' then Some v else get k rest
  end.

Definition field (k : string) (j : Json) : option Json :=
  match j with
  | JObj fields => get k fields
  | _ => None
  end.

(** [j[k1][k2]...] *)
Fixpoint at_path (ks : list string) (j : Json) : option Json :=
  match ks with
  | [] => Some j
  | k :: ks' =>
      match field k j with
      | Some j' => at_path ks' j'
      | None => None
      end
  end.

End Js.

Import Js.

Abbreviation bytes := (list Byte.byte).

(** ** Errors ([src/middleware/error-handler.ts]) *)

(** [interface AppError extends Error], with the two further properties
    the sources read: [code] (of a [NodeJS.ErrnoException] and of a
    [MulterError]) and whether the object has a [body] property (as the
    [SyntaxError] of the JSON body parser has). *)
Module AppError.
Record t : Type := mk {
  name : string;
  message : string;
  stack : option string;
  statusCode : option Z;
  status : option string;
  isOperational : option bool;
  code : option string;
  has_body : bool;
}.
End AppError.

(** A thrown value is an [Error] object or something else, of which the
    sources only take [String(error)]. *)
Inductive Thrown : Type :=
| ThrownError (e : AppError.t)
| ThrownValue (as_string : string).

(** [error instanceof Error ? error.message : String(error)] *)
Definition message_of (error : Thrown) : string :=
  match error with
  | ThrownError e => AppError.message e
  | ThrownValue s => s
  end.

Abbreviation JsResult := (Js.Result Thrown).

(** ** The platform: what the sources import and do not define

    The conversion engine ([IfcImporter] of @thatopen/fragments), the
    numeric class identifiers of web-ifc, the clock, the random source,
    the stack a new [Error] captures and the process environment. *)

Inductive SettingValue : Type :=
| SBool (b : bool)
| SNum (n : Z).

(** The properties of an [IfcImporter] that the converter touches. *)
Module IfcImporter.
Record t : Type := mk {
  wasm_path : string;
  wasm_absolute : bool;
  webIfcSettings : gmap string SettingValue;
  includeUniqueAttributes : bool;
  includeRelationNames : bool;
  classes_abstract : gset Z;
  relations : gmap Z (string * string);
}.
End IfcImporter.

Module WEBIFC.
Record t : Type := mk {
  IFCPROPERTYSET : Z;
  IFCPROPERTYSINGLEVALUE : Z;
  IFCPROPERTYLISTVALUE : Z;
  IFCPROPERTYENUMERATEDVALUE : Z;
  IFCPROPERTYBOUNDEDVALUE : Z;
  IFCPROPERTYTABLEVALUE : Z;
  IFCPROPERTYREFERENCEVALUE : Z;
  IFCPROPERTYSETDEFINITION : Z;
  IFCPROPERTYDEFINITION : Z;
  IFCPROPERTY : Z;
  IFCELEMENTQUANTITY : Z;
  IFCQUANTITYLENGTH : Z;
  IFCQUANTITYAREA : Z;
  IFCQUANTITYVOLUME : Z;
  IFCQUANTITYWEIGHT : Z;
  IFCQUANTITYCOUNT : Z;
  IFCRELDEFINESBYPROPERTIES : Z;
}.
End WEBIFC.

Record Platform : Type := {
  (** [new IfcImporter()]: a fresh importer, or the constructor throws *)
  new_IfcImporter : JsResult IfcImporter.t;
  (** [importer.process({ bytes })]: the output, or the engine throws.
      The engine reads the importer and leaves its properties alone. *)
  process : IfcImporter.t -> bytes -> JsResult bytes;
  webifc : WEBIFC.t;
  (** [new Date().toISOString()] *)
  Date_toISOString : string;
  (** [Date.now()] *)
  Date_now : Z;
  (** [Math.round(Math.random() * 1e9)] *)
  random_1e9 : Z;
  (** the stack captured by [new Error(message)] *)
  captureStackTrace : string -> string;
  (** [process.env.NODE_ENV] *)
  NODE_ENV : option string;
}.

(** ** Data of the converter service ([src/types/index.ts]) *)

Module ConversionOptions.
Record t : Type := mk {
  coordinateToOrigin : option bool;
  name : option string;
  excludedCategories : option (list Z);
  includeProperties : option bool;
}.
(** The default argument [options = {}]. *)
Definition empty : t := mk None None None None.
End ConversionOptions.

Module Metadata.
Record t : Type := mk {
  name : option string;
  timestamp : string;
  size : Z;
  options : ConversionOptions.t;
}.
End Metadata.

Module ConversionResult.
Record t : Type := mk {
  data : bytes;
  metadata : Metadata.t;
}.
End ConversionResult.

(** [class IfcToFragmentsConverter]: its two private fields. *)
Module IfcToFragmentsConverter.
Record t : Type := mk {
  ifcImporter : option IfcImporter.t;
  wasmPath : string;
}.
End IfcToFragmentsConverter.

(** [new IfcToFragmentsConverter()], the exported singleton. *)
Definition ifcConverter_initial : IfcToFragmentsConverter.t :=
  IfcToFragmentsConverter.mk None "./node_modules/web-ifc/".

(** The converter states of the specification. *)
Inductive ConverterState : Type :=
| Uninitialized
| Ready (engine : IfcImporter.t).

Definition state_of (this : IfcToFragmentsConverter.t) : ConverterState :=
  match IfcToFragmentsConverter.ifcImporter this with
  | None => Uninitialized
  | Some engine => Ready engine
  end.

(** One call of the engine's transform primitive: the importer as it
    was configured at the call, and the input. *)
Definition EngineCall : Type := (IfcImporter.t * bytes)%type.

(** ** The file system, the console and the response object *)

(** Error codes with which the operating system refuses an operation on
    an existing path.  [ENOENT] is not among them: it is what an absent
    path gives. *)
Inductive Errno : Type := EACCES | EPERM | EBUSY | EISDIR | EROFS.

Definition errno_code (e : Errno) : string :=
  match e with
  | EACCES => "EACCES" | EPERM => "EPERM" | EBUSY => "EBUSY"
  | EISDIR => "EISDIR" | EROFS => "EROFS"
  end.

Inductive FsOp : Type := ReadFile | Unlink | Mkdir.

Definition syscall (op : FsOp) : string :=
  match op with ReadFile => "open" | Unlink => "unlink" | Mkdir => "mkdir" end.

(** The state shared by all requests: the converter singleton, the
    calls the engine has received, the disk and the error console. *)
Module World.
Record t : Type := mk {
  ifcConverter : IfcToFragmentsConverter.t;
  engine_log : list EngineCall;
  files : gmap string bytes;
  dirs : gset string;
  (** the paths on which the operating system refuses an operation *)
  fault : FsOp -> string -> option Errno;
  (** [console.error(text, object)] entries, oldest first *)
  console : list (string * option AppError.t);
}.
End World.

(** The Express response object, as far as the sources drive it:
    [res.status], [res.set], [res.json] and [res.send]. *)
Module Res.
Inductive HeaderValue : Type :=
| Text (s : string)
(** the text [JSON.stringify(j)], kept as the JSON value it denotes *)
| Stringified (j : Js.Json).
Inductive Body : Type :=
| Json (j : Js.Json)
| Buffer (b : bytes).
Record t : Type := mk {
  statusCode : Z;
  headers : gmap string HeaderValue;
  body : option Body;
}.
Definition fresh : t := mk 200 ∅ None.
End Res.

(** [Express.Multer.File] and the request as the route handler sees it. *)
Module File.
Record t : Type := mk {
  fieldname : string;
  originalname : string;
  mimetype : string;
  size : Z;
  path : string;
}.
End File.

Module Request.
Record t : Type := mk {
  file : option File.t;
  (** text fields of the form; a field sent once is a string *)
  body : gmap string string;
  originalUrl : string;
}.
End Request.

(** The multipart request as it arrives: at most one file part, and the
    text fields, each sent once and so a string in [req.body]. *)
Module Upload.
Record part : Type := mk_part {
  fieldname : string;
  originalname : string;
  mimetype : string;
  content : bytes;
}.
Record t : Type := mk {
  file_part : option part;
  fields : gmap string string;
  originalUrl : string;
}.
End Upload.

(** The activation of one request: the shared world, the response under
    construction and the handler's local [let filePath]. *)
Module Frame.
Record t : Type := mk {
  world : World.t;
  res : Res.t;
  filePath : option string;
}.
Definition start (w : World.t) : t := mk w Res.fresh None.
End Frame.

(** Computations of a request: they read and write the frame and end
    normally or by throwing an [Error]. *)
Definition M (A : Type) : Type := Frame.t -> Frame.t * Js.Result AppError.t A.

Definition ret {A} (a : A) : M A := fun s => (s, Ok a).

Definition throw {A} (e : AppError.t) : M A := fun s => (s, Throw e).

Definition bind {A B} (m : M A) (k : A -> M B) : M B :=
  fun s => match m s with
           | (s', Ok a) => k a s'
           | (s', Throw e) => (s', Throw e)
           end.

(** [try { body } catch (error) { handler(error) }] *)
Definition try_catch {A} (body : M A) (handler : AppError.t -> M A) : M A :=
  fun s => match body s with
           | (s', Ok a) => (s', Ok a)
           | (s', Throw e) => handler e s'
           end.

(** [try { body } finally { final }]: [final] runs on both exits and its
    own throw replaces the outcome of [body]. *)
Definition try_finally {A} (body : M A) (final : M unit) : M A :=
  fun s => match body s with
           | (s', r) => match final s' with
                        | (s'', Ok _) => (s'', r)
                        | (s'', Throw e) => (s'', Throw e)
                        end
           end.

Declare Scope js_scope.
Delimit Scope js_scope with js.
Notation "'let!' x ':=' m 'in' k" := (bind m (fun x => k))
  (at level 10, x name, m at level 100, k at level 200) : js_scope.
Notation "m ';;' k" := (bind m (fun _ => k))
  (at level 100, k at level 200, right associativity) : js_scope.
Local Open Scope js_scope.

Definition get_world : M World.t := fun s => (s, Ok (Frame.world s)).

Definition put_world (w : World.t) : M unit :=
  fun s => (Frame.mk w (Frame.res s) (Frame.filePath s), Ok tt).

Definition get_res : M Res.t := fun s => (s, Ok (Frame.res s)).

Definition put_res (r : Res.t) : M unit :=
  fun s => (Frame.mk (Frame.world s) r (Frame.filePath s), Ok tt).

Definition get_filePath : M (option string) := fun s => (s, Ok (Frame.filePath s)).

Definition set_filePath (p : string) : M unit :=
  fun s => (Frame.mk (Frame.world s) (Frame.res s) (Some p), Ok tt).

(** [console.error(text, object)] *)
Definition console_error (text : string) (object : option AppError.t) : M unit :=
  let! w := get_world in
  put_world
    {| World.ifcConverter := World.ifcConverter w;
       World.engine_log := World.engine_log w;
       World.files := World.files w;
       World.dirs := World.dirs w;
       World.fault := World.fault w;
       World.console := World.console w ++ [(text, object)] |}.

(** [res.status(code)] *)
Definition res_status (code : Z) : M unit :=
  let! r := get_res in
  put_res (Res.mk code (Res.headers r) (Res.body r)).

(** [res.set({ ... })] *)
Definition res_set (fields : list (string * Res.HeaderValue)) : M unit :=
  let! r := get_res in
  put_res (Res.mk (Res.statusCode r)
                   (fold_left (fun h kv => <[ fst kv := snd kv ]> h) fields (Res.headers r))
                   (Res.body r)).

(** [res.json(value)] *)
Definition res_json (value : Js.Json) : M unit :=
  let! r := get_res in
  put_res (Res.mk (Res.statusCode r) (Res.headers r) (Some (Res.Json value))).

(** [res.send(Buffer.from(data))] *)
Definition res_send (data : bytes) : M unit :=
  let! r := get_res in
  put_res (Res.mk (Res.statusCode r) (Res.headers r) (Some (Res.Buffer data))).

Section Converter.

Variable P : Platform.

(** [new Error(message)] *)
Definition new_Error (message : string) : AppError.t :=
  {| AppError.name := "Error";
     AppError.message := message;
     AppError.stack := Some (captureStackTrace P message);
     AppError.statusCode := None;
     AppError.status := None;
     AppError.isOperational := None;
     AppError.code := None;
     AppError.has_body := false |}.

(** [new ApiError(message, statusCode)] *)
Definition new_ApiError (message : string) (statusCode : Z) : AppError.t :=
  {| AppError.name := "Error";
     AppError.message := message;
     AppError.stack := Some (captureStackTrace P message);
     AppError.statusCode := Some statusCode;
     AppError.status :=
       Some (if (400 <=? statusCode) && (statusCode <? 500) then "fail" else "error");
     AppError.isOperational := Some true;
     AppError.code := None;
     AppError.has_body := false |}.

Definition propertyClasses : list Z :=
  let W := webifc P in
  [ WEBIFC.IFCPROPERTYSET W;
    WEBIFC.IFCPROPERTYSINGLEVALUE W;
    WEBIFC.IFCPROPERTYLISTVALUE W;
    WEBIFC.IFCPROPERTYENUMERATEDVALUE W;
    WEBIFC.IFCPROPERTYBOUNDEDVALUE W;
    WEBIFC.IFCPROPERTYTABLEVALUE W;
    WEBIFC.IFCPROPERTYREFERENCEVALUE W;
    WEBIFC.IFCPROPERTYSETDEFINITION W;
    WEBIFC.IFCPROPERTYDEFINITION W;
    WEBIFC.IFCPROPERTY W;
    WEBIFC.IFCELEMENTQUANTITY W;
    WEBIFC.IFCQUANTITYLENGTH W;
    WEBIFC.IFCQUANTITYAREA W;
    WEBIFC.IFCQUANTITYVOLUME W;
    WEBIFC.IFCQUANTITYWEIGHT W;
    WEBIFC.IFCQUANTITYCOUNT W ].

(** The statements of [initialize()] that follow the construction. *)
Definition configure (wasmPath : string) (fresh : IfcImporter.t) : IfcImporter.t :=
  let rel := WEBIFC.IFCRELDEFINESBYPROPERTIES (webifc P) in
  {| IfcImporter.wasm_path := wasmPath;
     IfcImporter.wasm_absolute := false;
     IfcImporter.webIfcSettings := {[ "COORDINATE_TO_ORIGIN" := SBool true ]};
     IfcImporter.includeUniqueAttributes := true;
     IfcImporter.includeRelationNames := true;
     IfcImporter.classes_abstract :=
       fold_left (fun acc classId => {[ classId ]} ∪ acc) propertyClasses
                 (IfcImporter.classes_abstract fresh);
     IfcImporter.relations :=
       match IfcImporter.relations fresh !! rel with
       | Some _ => IfcImporter.relations fresh
       | None => <[ rel := ("RelatingPropertyDefinition", "RelatedObjects") ]>
                   (IfcImporter.relations fresh)
       end |}.

(** [initialize(): void] *)
Definition initialize (this : IfcToFragmentsConverter.t)
  : IfcToFragmentsConverter.t * Js.Result AppError.t unit :=
  match new_IfcImporter P with
  | Ok fresh =>
      ({| IfcToFragmentsConverter.ifcImporter :=
            Some (configure (IfcToFragmentsConverter.wasmPath this) fresh);
          IfcToFragmentsConverter.wasmPath := IfcToFragmentsConverter.wasmPath this |},
       Ok tt)
  | Throw error =>
      (this, Throw (new_Error ("Failed to initialize IFC importer: " ++ message_of error)))
  end.

(** The per-call override of [convert]. *)
Definition apply_settings (options : ConversionOptions.t) (imp : IfcImporter.t)
  : IfcImporter.t :=
  match ConversionOptions.coordinateToOrigin options with
  | Some b =>
      {| IfcImporter.wasm_path := IfcImporter.wasm_path imp;
         IfcImporter.wasm_absolute := IfcImporter.wasm_absolute imp;
         IfcImporter.webIfcSettings :=
           <[ "COORDINATE_TO_ORIGIN" := SBool b ]> (IfcImporter.webIfcSettings imp);
         IfcImporter.includeUniqueAttributes := IfcImporter.includeUniqueAttributes imp;
         IfcImporter.includeRelationNames := IfcImporter.includeRelationNames imp;
         IfcImporter.classes_abstract := IfcImporter.classes_abstract imp;
         IfcImporter.relations := IfcImporter.relations imp |}
  | None => imp
  end.

Definition not_initialized_message : string :=
  "IFC importer not initialized. Call initialize() first.".

(** [async convert(ifcData, options = {})]: the converter after the
    call, the engine calls made, and the result or the rejection. *)
Definition convert (this : IfcToFragmentsConverter.t) (ifcData : bytes)
    (options : ConversionOptions.t)
  : IfcToFragmentsConverter.t * list EngineCall * Js.Result AppError.t ConversionResult.t :=
  match IfcToFragmentsConverter.ifcImporter this with
  | None => (this, [], Throw (new_Error not_initialized_message))
  | Some imp =>
      let imp' := apply_settings options imp in
      let this' :=
        {| IfcToFragmentsConverter.ifcImporter := Some imp';
           IfcToFragmentsConverter.wasmPath := IfcToFragmentsConverter.wasmPath this |} in
      match process P imp' ifcData with
      | Ok fragmentsData =>
          (this', [(imp', ifcData)],
           Ok {| ConversionResult.data := fragmentsData;
                 ConversionResult.metadata :=
                   {| Metadata.name := ConversionOptions.name options;
                      Metadata.timestamp := Date_toISOString P;
                      Metadata.size := Z.of_nat (List.length fragmentsData);
                      Metadata.options := options |} |})
      | Throw error =>
          (this', [(imp', ifcData)],
           Throw (new_Error ("Failed to convert IFC to Fragments: " ++ message_of error)))
      end
  end.

(** [cleanup(): void] *)
Definition cleanup (this : IfcToFragmentsConverter.t) : IfcToFragmentsConverter.t :=
  match IfcToFragmentsConverter.ifcImporter this with
  | Some _ =>
      {| IfcToFragmentsConverter.ifcImporter := None;
         IfcToFragmentsConverter.wasmPath := IfcToFragmentsConverter.wasmPath this |}
  | None => this
  end.

End Converter.

(** ** The server: file utilities, fault translation, upload and routes *)

Section Server.

Variable P : Platform.

(** The error with which [fs/promises] rejects. *)
Definition new_ErrnoException (code : string) (op : FsOp) (path : string) : AppError.t :=
  let message := code ++ ": " ++ syscall op ++ " '" ++ path ++ "'" in
  {| AppError.name := "Error";
     AppError.message := message;
     AppError.stack := Some (captureStackTrace P message);
     AppError.statusCode := None;
     AppError.status := None;
     AppError.isOperational := None;
     AppError.code := Some code;
     AppError.has_body := false |}.

(** [readFile(path)] of [fs/promises] *)
Definition fs_readFile (path : string) : M bytes :=
  let! w := get_world in
  match World.files w !! path with
  | None => throw (new_ErrnoException "ENOENT" ReadFile path)
  | Some content =>
      match World.fault w ReadFile path with
      | Some e => throw (new_ErrnoException (errno_code e) ReadFile path)
      | None => ret content
      end
  end.

(** [unlink(path)] of [fs/promises] *)
Definition fs_unlink (path : string) : M unit :=
  let! w := get_world in
  match World.files w !! path with
  | None => throw (new_ErrnoException "ENOENT" Unlink path)
  | Some _ =>
      match World.fault w Unlink path with
      | Some e => throw (new_ErrnoException (errno_code e) Unlink path)
      | None =>
          put_world
            {| World.ifcConverter := World.ifcConverter w;
               World.engine_log := World.engine_log w;
               World.files := delete path (World.files w);
               World.dirs := World.dirs w;
               World.fault := World.fault w;
               World.console := World.console w |}
      end
  end.

(** [existsSync(path)] of [fs] *)
Definition fs_existsSync (path : string) : M bool :=
  let! w := get_world in
  ret (bool_decide (path ∈ World.dirs w) || bool_decide (is_Some (World.files w !! path))).

(** [mkdir(path, { recursive: true })] of [fs/promises] *)
Definition fs_mkdir (path : string) : M unit :=
  let! w := get_world in
  match World.fault w Mkdir path with
  | Some e => throw (new_ErrnoException (errno_code e) Mkdir path)
  | None =>
      put_world
        {| World.ifcConverter := World.ifcConverter w;
           World.engine_log := World.engine_log w;
           World.files := World.files w;
           World.dirs := {[ path ]} ∪ World.dirs w;
           World.fault := World.fault w;
           World.console := World.console w |}
  end.

(** What the disk storage of multer does with an accepted file. *)
Definition fs_writeFile (path : string) (content : bytes) : M unit :=
  let! w := get_world in
  put_world
    {| World.ifcConverter := World.ifcConverter w;
       World.engine_log := World.engine_log w;
       World.files := <[ path := content ]> (World.files w);
       World.dirs := World.dirs w;
       World.fault := World.fault w;
       World.console := World.console w |}.

(** *** [src/utils/file-utils.ts] *)

Definition readFileAsUint8Array (filePath : string) : M bytes :=
  let! buffer := fs_readFile filePath in
  ret buffer.

Definition deleteTempFile (filePath : string) : M unit :=
  try_catch (fs_unlink filePath)
    (fun error =>
       match AppError.code error with
       | Some "ENOENT" => ret tt
       | _ => console_error ("Failed to delete temp file " ++ filePath ++ ":") (Some error)
       end).

Definition ensureDirectoryExists (dirPath : string) : M unit :=
  let! present := fs_existsSync dirPath in
  if negb present then fs_mkdir dirPath else ret tt.

(** *** [src/middleware/error-handler.ts] *)

(** [process.env.NODE_ENV !== "production"] *)
Definition non_production : bool :=
  match NODE_ENV P with
  | Some "production" => false
  | _ => true
  end.

(** [err.statusCode || 500] *)
Definition statusCode_or_500 (err : AppError.t) : Z :=
  match AppError.statusCode err with
  | Some c => if c =? 0 then 500 else c
  | None => 500
  end.

Definition errorHandler (err : AppError.t) : M unit :=
  let statusCode := statusCode_or_500 err in
  let status := Js.or_else (AppError.status err) "error" in
  console_error ("[Error] " ++ Js.toString statusCode ++ " - " ++ AppError.message err) None ;;
  (if non_production
   then console_error (default "undefined" (AppError.stack err)) None
   else ret tt) ;;
  if String.eqb (AppError.name err) "MulterError" then
    res_status 400 ;;
    res_json (JObj (Js.object
      [ ("status", Some (JStr "fail"));
        ("message", Some (JStr ("File upload error: " ++ AppError.message err))) ]))
  else if String.eqb (AppError.name err) "SyntaxError" && AppError.has_body err then
    res_status 400 ;;
    res_json (JObj (Js.object
      [ ("status", Some (JStr "fail"));
        ("message", Some (JStr "Invalid JSON in request body")) ]))
  else
    res_status statusCode ;;
    res_json (JObj (Js.object
      [ ("status", Some (JStr status));
        ("message",
         Some (JStr (match AppError.isOperational err with
                     | Some true => AppError.message err
                     | _ => "Internal server error"
                     end)));
        ("stack", if non_production then JStr <$> AppError.stack err else None) ])).

Definition notFoundHandler (req : Request.t) : M unit :=
  res_status 404 ;;
  res_json (JObj (Js.object
    [ ("status", Some (JStr "fail"));
      ("message", Some (JStr ("Route " ++ Request.originalUrl req ++ " not found"))) ])).

(** *** [src/routes/convert.ts]: the upload middleware

    multer is a dependency; what follows is its disk storage and
    [upload.single] as the route configures them: the [destination],
    [filename], [fileFilter] and [limits] callbacks are the source's. *)

Definition uploadDir : string := "uploads/".

(** [destination]: [cb(null, uploadDir)], or [cb(error, uploadDir)] *)
Definition storage_destination : M string :=
  try_catch (ensureDirectoryExists uploadDir ;; ret uploadDir) (fun error => throw error).

(** [filename] *)
Definition storage_filename (originalname : string) : string :=
  let uniqueSuffix := Js.toString (Date_now P) ++ "-" ++ Js.toString (random_1e9 P) in
  uniqueSuffix ++ "-" ++ originalname.

(** [fileFilter]: [true] when the file is accepted *)
Definition fileFilter (mimetype originalname : string) : bool :=
  String.eqb mimetype "application/x-step"
  || Js.endsWith (Js.toLowerCase originalname) ".ifc".

(** [limits.fileSize] *)
Definition limits_fileSize : Z := 100 * 1024 * 1024.

(** [new MulterError(code)] with the message multer attaches to it *)
Definition new_MulterError (code message : string) : AppError.t :=
  {| AppError.name := "MulterError";
     AppError.message := message;
     AppError.stack := Some (captureStackTrace P message);
     AppError.statusCode := None;
     AppError.status := None;
     AppError.isOperational := None;
     AppError.code := Some code;
     AppError.has_body := false |}.

(** [upload.single(fieldName)]: a file under another field name is
    unexpected; a file the filter rejects fails with the filter's error;
    a file over the size limit fails and leaves nothing on disk; an
    accepted file is written under [uploadDir] and becomes [req.file]. *)
Definition upload_single (fieldName : string) (raw : Upload.t) : M Request.t :=
  match Upload.file_part raw with
  | None => ret (Request.mk None (Upload.fields raw) (Upload.originalUrl raw))
  | Some part =>
      if negb (String.eqb (Upload.fieldname part) fieldName) then
        throw (new_MulterError "LIMIT_UNEXPECTED_FILE" "Unexpected field")
      else if negb (fileFilter (Upload.mimetype part) (Upload.originalname part)) then
        throw (new_ApiError P "Only IFC files are allowed" 400)
      else
        let! destination := storage_destination in
        let size := Z.of_nat (List.length (Upload.content part)) in
        if limits_fileSize <? size then
          throw (new_MulterError "LIMIT_FILE_SIZE" "File too large")
        else
          let path := destination ++ storage_filename (Upload.originalname part) in
          fs_writeFile path (Upload.content part) ;;
          ret (Request.mk
                 (Some {| File.fieldname := Upload.fieldname part;
                          File.originalname := Upload.originalname part;
                          File.mimetype := Upload.mimetype part;
                          File.size := size;
                          File.path := path |})
                 (Upload.fields raw) (Upload.originalUrl raw))
  end.

(** *** [src/routes/convert.ts]: the routes *)

(** [ifcConverter.convert(ifcData, options)] on the singleton *)
Definition ifcConverter_convert (ifcData : bytes) (options : ConversionOptions.t)
  : M ConversionResult.t :=
  fun s =>
    let w := Frame.world s in
    match convert P (World.ifcConverter w) ifcData options with
    | (this', calls, result) =>
        (Frame.mk
           {| World.ifcConverter := this';
              World.engine_log := World.engine_log w ++ calls;
              World.files := World.files w;
              World.dirs := World.dirs w;
              World.fault := World.fault w;
              World.console := World.console w |}
           (Frame.res s) (Frame.filePath s),
         result)
    end.

(** The options object of the route has exactly these two properties. *)
Definition route_options (name : string) (coordinateToOrigin : bool) : ConversionOptions.t :=
  {| ConversionOptions.coordinateToOrigin := Some coordinateToOrigin;
     ConversionOptions.name := Some name;
     ConversionOptions.excludedCategories := None;
     ConversionOptions.includeProperties := None |}.

(** [req.body.coordinateToOrigin !== "false"] *)
Definition coordinateToOrigin_of (body : gmap string string) : bool :=
  match body !! "coordinateToOrigin" with
  | Some "false" => false
  | _ => true
  end.

(** First revision:
    [req.body.name || req.file.originalname.replace(".ifc", "")] *)
Definition options_A (body : gmap string string) (file : File.t) : ConversionOptions.t :=
  route_options
    (Js.or_else (body !! "name") (Js.replace (File.originalname file) ".ifc" ""))
    (coordinateToOrigin_of body).

(** Second revision:
    [typeof body.name === "string" ? body.name : req.file.originalname.replace(".ifc", "")] *)
Definition options_B (body : gmap string string) (file : File.t) : ConversionOptions.t :=
  route_options
    (match body !! "name" with
     | Some name => name
     | None => Js.replace (File.originalname file) ".ifc" ""
     end)
    (coordinateToOrigin_of body).

Definition options_json (o : ConversionOptions.t) : Js.Json :=
  JObj (Js.object
    [ ("name", JStr <$> ConversionOptions.name o);
      ("coordinateToOrigin", JBool <$> ConversionOptions.coordinateToOrigin o);
      ("excludedCategories",
       (fun l => JArr (map JNum l)) <$> ConversionOptions.excludedCategories o);
      ("includeProperties", JBool <$> ConversionOptions.includeProperties o) ]).

(** [result.metadata] as [JSON.stringify] serialises it. *)
Definition metadata_json (m : Metadata.t) : Js.Json :=
  JObj (Js.object
    [ ("name", JStr <$> Metadata.name m);
      ("timestamp", Some (JStr (Metadata.timestamp m)));
      ("size", Some (JNum (Metadata.size m)));
      ("options", Some (options_json (Metadata.options m))) ]).

(** [`attachment; filename="${name}.frag"`] *)
Definition content_disposition (name : string) : string :=
  "attachment; filename=" ++ Js.dquote ++ name ++ ".frag" ++ Js.dquote.

Definition no_file_message : string :=
  "No IFC file uploaded. Please upload a file with field name 'ifc'".

(** The body of the [try] block (first revision) and of
    [processConversion] (second revision): the same statements, except
    for the expression that derives [options]. *)
Definition processConversion
    (options_of : gmap string string -> File.t -> ConversionOptions.t)
    (req : Request.t) : M unit :=
  match Request.file req with
  | None => throw (new_ApiError P no_file_message 400)
  | Some file =>
      set_filePath (File.path file) ;;
      let! ifcData := readFileAsUint8Array (File.path file) in
      let options := options_of (Request.body req) file in
      let! result := ifcConverter_convert ifcData options in
      res_set
        [ ("Content-Type", Res.Text "application/octet-stream");
          ("Content-Disposition",
           Res.Text (content_disposition (default "undefined" (ConversionOptions.name options))));
          ("Content-Length",
           Res.Text (Js.toString (Z.of_nat (List.length (ConversionResult.data result)))));
          ("X-Fragments-Metadata",
           Res.Stringified (metadata_json (ConversionResult.metadata result))) ] ;;
      res_send (ConversionResult.data result)
  end.

(** [let filePath: string | null = null] *)
Definition let_filePath_null : M unit :=
  fun s => (Frame.mk (Frame.world s) (Frame.res s) None, Ok tt).

(** [router.post("/convert", ...)], first revision:
    [try { ... } catch (error) { next(error) } finally { ... }] *)
Definition convert_route_A (req : Request.t) (next : AppError.t -> M unit) : M unit :=
  let_filePath_null ;;
  try_finally
    (try_catch (processConversion options_A req) (fun error => next error))
    (let! filePath := get_filePath in
     match filePath with
     | Some path => if Js.truthy path then deleteTempFile path else ret tt
     | None => ret tt
     end).

(** [router.post("/convert", ...)], second revision:
    [processConversion().catch(next).finally(() => { ... })] *)
Definition convert_route_B (req : Request.t) (next : AppError.t -> M unit) : M unit :=
  let_filePath_null ;;
  try_finally
    (try_catch (processConversion options_B req) next)
    (let! filePath := get_filePath in
     match filePath with
     | Some path =>
         if Js.truthy path then
           try_catch (deleteTempFile path)
             (fun err =>
                console_error ("Failed to delete temp file: " ++ AppError.message err) None)
         else ret tt
     | None => ret tt
     end).

(** [router.get("/status", ...)], the same in both revisions *)
Definition status_route : M unit :=
  res_json (JObj (Js.object
    [ ("status", Some (JStr "ok"));
      ("ready", Some (JBool true));
      ("service", Some (JStr "IFC to Fragments Converter"));
      ("version", Some (JStr "1.0.0")) ])).

(** *** [src/app.ts]: the routes mounted under [/api], then the global
    error handler *)

(** [POST /api/convert]: [upload.single("ifc")], then the route; an
    error of the middleware goes to [errorHandler]. *)
Definition post_convert
    (route : Request.t -> (AppError.t -> M unit) -> M unit) (raw : Upload.t) : M unit :=
  fun s =>
    match upload_single "ifc" raw s with
    | (s', Ok req) => route req errorHandler s'
    | (s', Throw error) => errorHandler error s'
    end.

(** [GET /api/status] *)
Definition get_status : M unit := status_route.

(** Serving one request in a world: the world and the response after. *)
Definition serve (handler : M unit) (w : World.t) : World.t * Res.t :=
  let s := fst (handler (Frame.start w)) in
  (Frame.world s, Frame.res s).

End Server.

(** ** A concrete platform: the engine mocked as in [tests/api.test.ts] *)

Definition mock_importer : IfcImporter.t :=
  {| IfcImporter.wasm_path := "";
     IfcImporter.wasm_absolute := false;
     IfcImporter.webIfcSettings := ∅;
     IfcImporter.includeUniqueAttributes := false;
     IfcImporter.includeRelationNames := false;
     IfcImporter.classes_abstract := ∅;
     IfcImporter.relations := ∅ |}.

Definition mock_webifc : WEBIFC.t :=
  WEBIFC.mk 1 2 3 4 5 6 7 8 9 10 11 12 13 14 15 16 17.

Definition mock_output : bytes :=
  [Byte.x01; Byte.x02; Byte.x03; Byte.x04; Byte.x05].

Definition mock_platform (node_env : option string) : Platform :=
  {| new_IfcImporter := Ok mock_importer;
     process := fun _ _ => Ok mock_output;
     webifc := mock_webifc;
     Date_toISOString := "2025-01-15T10:30:00.000Z";
     Date_now := 1736937000000;
     random_1e9 := 123456789;
     captureStackTrace := fun message => "Error: " ++ message;
     NODE_ENV := node_env |}.

(** An engine that rejects every input. *)
Definition failing_platform : Platform :=
  {| new_IfcImporter := Ok mock_importer;
     process := fun _ _ => Throw (ThrownValue "bad input");
     webifc := mock_webifc;
     Date_toISOString := "2025-01-15T10:30:00.000Z";
     Date_now := 1736937000000;
     random_1e9 := 123456789;
     captureStackTrace := fun message => "Error: " ++ message;
     NODE_ENV := Some "test" |}.

Definition test_platform : Platform := mock_platform (Some "test").

(** A world with an empty disk, a silent console and the given converter. *)
Definition world_with (conv : IfcToFragmentsConverter.t) : World.t :=
  {| World.ifcConverter := conv;
     World.engine_log := [];
     World.files := ∅;
     World.dirs := ∅;
     World.fault := fun _ _ => None;
     World.console := [] |}.

(** The converter after [initialize()] on the mocked platform. *)
Definition ready_converter : IfcToFragmentsConverter.t :=
  fst (initialize test_platform ifcConverter_initial).

Definition sample_upload (originalname : string) (fields : gmap string string) : Upload.t :=
  {| Upload.file_part :=
       Some (Upload.mk_part "ifc" originalname "application/octet-stream" [Byte.x49; Byte.x46; Byte.x43]);
     Upload.fields := fields;
     Upload.originalUrl := "/api/convert" |}.

(** ** Reading a response *)

(** The [ready] property of a JSON response body. *)
Definition ready_of (r : Res.t) : option Js.Json :=
  match Res.body r with
  | Some (Res.Json j) => Js.field "ready" j
  | _ => None
  end.

(** The status, the discriminator and the message of a JSON fault body. *)
Definition fault_shape (r : Res.t) : Z * option Js.Json * option Js.Json :=
  match Res.body r with
  | Some (Res.Json j) => (Res.statusCode r, Js.field "status" j, Js.field "message" j)
  | _ => (Res.statusCode r, None, None)
  end.

(** The [stack] property of a JSON response body. *)
Definition stack_of (r : Res.t) : option Js.Json :=
  match Res.body r with
  | Some (Res.Json j) => Js.field "stack" j
  | _ => None
  end.

(** A property, by its path, of the parsed [X-Fragments-Metadata] header. *)
Definition metadata_of (r : Res.t) (ks : list string) : option Js.Json :=
  match Res.headers r !! "X-Fragments-Metadata" with
  | Some (Res.Stringified j) => Js.at_path ks j
  | _ => None
  end.

(** The response of a successful conversion run with [options]. *)
Definition success_response_of (P : Platform) (options : ConversionOptions.t) (r : Res.t)
  : Prop :=
  exists data,
    Res.body r = Some (Res.Buffer data)
    /\ Res.headers r !! "Content-Type" = Some (Res.Text "application/octet-stream")
    /\ Res.headers r !! "Content-Disposition"
       = Some (Res.Text (content_disposition
                           (default "undefined" (ConversionOptions.name options))))
    /\ Res.headers r !! "Content-Length"
       = Some (Res.Text (Js.toString (Z.of_nat (List.length data))))
    /\ Res.headers r !! "X-Fragments-Metadata"
       = Some (Res.Stringified
                 (metadata_json
                    {| Metadata.name := ConversionOptions.name options;
                       Metadata.timestamp := Date_toISOString P;
                       Metadata.size := Z.of_nat (List.length data);
                       Metadata.options := options |})).

(** ** Auxiliary notions of the properties *)

(** A route paired with the way it derives the options. *)
Definition revision (P : Platform)
    (route : Request.t -> (AppError.t -> M unit) -> M unit)
    (options_of : gmap string string -> File.t -> ConversionOptions.t) : Prop :=
  (route = convert_route_A P /\ options_of = options_A)
  \/ (route = convert_route_B P /\ options_of = options_B).

(** The faults [errorHandler] answers with a fixed body before it
    reaches the general response. *)
Definition answered_early (err : AppError.t) : bool :=
  String.eqb (AppError.name err) "MulterError"
  || (String.eqb (AppError.name err) "SyntaxError" && AppError.has_body err).

(** The name the specification's words describe: the form field when
    present, otherwise the filename up to its last dot. *)
Fixpoint spec_strip_extension (filename : string) : string :=
  match filename with
  | EmptyString => EmptyString
  | String c rest =>
      if Ascii.eqb c "." && negb (Js.includes rest ".") then EmptyString
      else String c (spec_strip_extension rest)
  end.

Definition spec_name (fields : gmap string string) (originalname : string) : string :=
  match fields !! "name" with
  | Some name => name
  | None => spec_strip_extension originalname
  end.

(** ** Further test data *)

(** World in which the operating system refuses every [unlink]. *)
Definition world_refusing_unlink (conv : IfcToFragmentsConverter.t) : World.t :=
  {| World.ifcConverter := conv;
     World.engine_log := [];
     World.files := ∅;
     World.dirs := ∅;
     World.fault := fun op _ => match op with Unlink => Some EPERM | _ => None end;
     World.console := [] |}.

(** An upload of 100 MiB and one byte. *)
Definition oversized_part : Upload.part :=
  Upload.mk_part "ifc" "big.ifc" "application/octet-stream"
    (repeat Byte.x00 (Z.to_nat (100 * 1024 * 1024 + 1))).

Definition oversized_upload : Upload.t :=
  {| Upload.file_part := Some oversized_part;
     Upload.fields := ∅;
     Upload.originalUrl := "/api/convert" |}.

(** Unfolding of the request monad. *)
Ltac unfold_js :=
  unfold bind, ret, throw, try_catch, try_finally,
    get_world, put_world, get_res, put_res, get_filePath, set_filePath,
    let_filePath_null, console_error, res_status, res_set, res_json, res_send in *.

(** ** Sequences of calls *)



(** A platform whose engine cannot be constructed. *)
Definition broken_platform : Platform :=
  {| new_IfcImporter := Throw (ThrownValue "wasm not found");
     process := fun _ _ => Ok mock_output;
     webifc := mock_webifc;
     Date_toISOString := "2025-01-15T10:30:00.000Z";
     Date_now := 1736937000000;
     random_1e9 := 123456789;
     captureStackTrace := fun message => "Error: " ++ message;
     NODE_ENV := Some "test" |}.

(** ** Errors of the upload pipeline *)

(** The shapes of error that the upload middleware and the conversion
    route raise: a [MulterError]; an [ApiError] built with status 400;
    a plain [Error] (of [fs], or of the converter). *)
Definition pipeline_error (e : AppError.t) : Prop :=
  AppError.name e = "MulterError"
  \/ (AppError.name e = "Error"
      /\ AppError.statusCode e = Some 400
      /\ AppError.status e = Some "fail"
      /\ AppError.isOperational e = Some true)
  \/ (AppError.name e = "Error"
      /\ AppError.statusCode e = None
      /\ AppError.status e = None
      /\ AppError.isOperational e = None).

(** ** Text without a dash *)

(** No character of the string is [-]. *)
Fixpoint dashless (s : string) : Prop :=
  match s with
  | EmptyString => True
  | String c rest => c <> "-"%char /\ dashless rest
  end.

(** ** What a request can observe of the world *)

(** The upload directory exists, or [mkdir] is not refused. *)
Definition upload_dir_ok (w : World.t) : bool :=
  bool_decide (uploadDir ∈ World.dirs w)
  || bool_decide (is_Some (World.files w !! uploadDir))
  || match World.fault w Mkdir uploadDir with
     | None => true
     | Some _ => false
     end.

(** Two importers that become equal as soon as a call overrides
    [COORDINATE_TO_ORIGIN]. *)
Definition same_up_to_override (e e' : IfcImporter.t) : Prop :=
  forall b, apply_settings (route_options "" b) e = apply_settings (route_options "" b) e'.

(** Two worlds that serve alike: the same refusals of the operating
    system, the upload directory usable in both or in neither, and
    converters that are both uninitialized or hold importers equal up to
    the override. *)
Definition same_service (w w' : World.t) : Prop :=
  World.fault w = World.fault w'
  /\ upload_dir_ok w = upload_dir_ok w'
  /\ IfcToFragmentsConverter.wasmPath (World.ifcConverter w)
     = IfcToFragmentsConverter.wasmPath (World.ifcConverter w')
  /\ match IfcToFragmentsConverter.ifcImporter (World.ifcConverter w),
           IfcToFragmentsConverter.ifcImporter (World.ifcConverter w') with
     | None, None => True
     | Some e, Some e' => same_up_to_override e e'
     | _, _ => False
     end.

(** The requests of [raws] served one after the other, oldest first. *)
Fixpoint serve_all (P : Platform)
    (route : Request.t -> (AppError.t -> M unit) -> M unit)
    (raws : list Upload.t) (w : World.t) : World.t :=
  match raws with
  | [] => w
  | raw :: rest => serve_all P route rest (fst (serve (post_convert P route raw) w))
  end.

(** ** The example client ([examples/convert-ifc.js])

    [parseArgs] in full, and of [convertIFC] the construction of the
    multipart form that it posts.  [path.basename] is Node's and is a
    parameter: [basename p None] is [path.basename(p)] and
    [basename p (Some ext)] is [path.basename(p, ext)].  The usage text
    that [parseArgs] prints before [process.exit(1)] is left out; the
    exit is [None]. *)

Module Client.

Record options : Type := mk {
  inputFile : option string;
  outputFile : option string;
  name : option string;
  coordinateToOrigin : bool;
  apiUrl : string;
}.

(** [!value] for a string or [null]. *)
Definition falsy (value : option string) : bool :=
  match value with
  | Some s => negb (Js.truthy s)
  | None => true
  end.

(** The body of the [for (const arg of args)] loop. *)
Definition parse_arg (o : options) (arg : string) : options :=
  if Js.startsWith arg "--name=" then
    mk (inputFile o) (outputFile o) (Some (Js.drop 7 arg)) (coordinateToOrigin o) (apiUrl o)
  else if String.eqb arg "--no-coordinate-to-origin" then
    mk (inputFile o) (outputFile o) (name o) false (apiUrl o)
  else if Js.startsWith arg "--api-url=" then
    mk (inputFile o) (outputFile o) (name o) (coordinateToOrigin o) (Js.drop 10 arg)
  else if negb (Js.startsWith arg "--") then
    if falsy (inputFile o) then
      mk (Some arg) (outputFile o) (name o) (coordinateToOrigin o) (apiUrl o)
    else if falsy (outputFile o) then
      mk (inputFile o) (Some arg) (name o) (coordinateToOrigin o) (apiUrl o)
    else o
  else o.

(** [parseArgs()] on [args = process.argv.slice(2)]. *)
Definition parseArgs (basename : string -> option string -> string)
    (API_BASE_URL : string) (args : list string) : option options :=
  match args with
  | [] => None
  | _ =>
      let o := fold_left parse_arg args (mk None None None true API_BASE_URL) in
      match inputFile o with
      | None => None
      | Some input =>
          if negb (Js.truthy input) then None
          else if falsy (outputFile o) then
            Some (mk (inputFile o) (Some (basename input (Some ".ifc") ++ ".frag"))
                     (name o) (coordinateToOrigin o) (apiUrl o))
          else Some o
      end
  end.

(** [String(b)] *)
Definition String_of_bool (b : bool) : string := if b then "true" else "false".

(** The [FormData] that [convertIFC(inputPath, options)] builds from
    the file it read, as the server receives it. *)
Definition convertIFC_form (basename : string -> option string -> string)
    (inputPath : string) (fileBuffer : bytes)
    (name : option string) (coordinateToOrigin : option bool) : Upload.t :=
  let with_name : gmap string string :=
    if falsy name then ∅ else <[ "name" := default "" name ]> ∅ in
  let fields :=
    match coordinateToOrigin with
    | Some b => <[ "coordinateToOrigin" := String_of_bool b ]> with_name
    | None => with_name
    end in
  {| Upload.file_part :=
       Some (Upload.mk_part "ifc" (basename inputPath None) "application/x-step" fileBuffer);
     Upload.fields := fields;
     Upload.originalUrl := "/api/convert" |}.

(** The form that [main()] posts for the parsed options. *)
Definition main_form (basename : string -> option string -> string)
    (o : options) (fileBuffer : bytes) : Upload.t :=
  convertIFC_form basename (default "" (inputFile o)) fileBuffer
    (name o) (Some (coordinateToOrigin o)).

(** An argument that the loop takes as a file name. *)
Definition positional (arg : string) : bool :=
  negb (Js.startsWith arg "--") && Js.truthy arg.

End Client.

(** A stand-in for [path.basename] in examples: names without
    directories, the extension removed when it is the given suffix. *)
Definition flat_basename (p : string) (ext : option string) : string :=
  match ext with
  | Some e =>
      if Js.endsWith p e
      then String.substring 0 (String.length p - String.length e) p
      else p
  | None => p
  end.

(** * Properties *)

(** ** The model against the integration tests ([tests/api.test.ts]) *)

Example test_no_file_uploaded :
  fault_shape
    (snd (serve (post_convert test_platform (convert_route_A test_platform)
                   (Upload.mk None ∅ "/api/convert"))
            (world_with ready_converter)))
  = (400, Some (JStr "fail"), Some (JStr no_file_message)).
Proof. reflexivity. Qed.

Example test_invalid_file_type :
  fault_shape
    (snd (serve (post_convert test_platform (convert_route_A test_platform)
                   (sample_upload "test.txt" ∅))
            (world_with ready_converter)))
  = (400, Some (JStr "fail"), Some (JStr "Only IFC files are allowed")).
Proof. reflexivity. Qed.

Example test_accepts_ifc_file :
  let r := snd (serve (post_convert test_platform (convert_route_A test_platform)
                         (sample_upload "sample.ifc" ∅))
                  (world_with ready_converter)) in
  Res.statusCode r = 200
  /\ Res.body r = Some (Res.Buffer mock_output)
  /\ Res.headers r !! "Content-Type" = Some (Res.Text "application/octet-stream")
  /\ Res.headers r !! "Content-Length" = Some (Res.Text "5")
  /\ metadata_of r ["name"] = Some (JStr "sample")
  /\ metadata_of r ["size"] = Some (JNum 5).
Proof. vm_compute. repeat split; reflexivity. Qed.

Example test_content_disposition_filename :
  Res.headers
    (snd (serve (post_convert test_platform (convert_route_A test_platform)
                   (sample_upload "sample.ifc" {[ "name" := "MyBuilding" ]}))
            (world_with ready_converter)))
  !! "Content-Disposition"
  = Some (Res.Text (content_disposition "MyBuilding")).
Proof. vm_compute. reflexivity. Qed.

(** A conversion the engine rejects is answered 500, and the staged
    file is gone. *)
Example conversion_failure_cleans_up :
  let served :=
    serve (post_convert failing_platform (convert_route_A failing_platform)
             (sample_upload "sample.ifc" ∅))
      (world_with (fst (initialize failing_platform ifcConverter_initial))) in
  fault_shape (snd served)
  = (500, Some (JStr "error"), Some (JStr "Internal server error"))
  /\ World.files (fst served) = ∅.
Proof. vm_compute. split; reflexivity. Qed.

(** ** The converter service *)

Lemma cleanup_uninitialized (this : IfcToFragmentsConverter.t) :
  state_of (cleanup this) = Uninitialized.
Proof.
  unfold cleanup, state_of.
  destruct (IfcToFragmentsConverter.ifcImporter this) eqn:E; simpl; [reflexivity|].
  now rewrite E.
Qed.

Lemma initial_uninitialized : state_of ifcConverter_initial = Uninitialized.
Proof. reflexivity. Qed.

Lemma state_of_uninitialized (this : IfcToFragmentsConverter.t) :
  state_of this = Uninitialized <-> IfcToFragmentsConverter.ifcImporter this = None.
Proof.
  unfold state_of. destruct (IfcToFragmentsConverter.ifcImporter this); split; congruence.
Qed.

Lemma state_of_ready (this : IfcToFragmentsConverter.t) (engine : IfcImporter.t) :
  state_of this = Ready engine <-> IfcToFragmentsConverter.ifcImporter this = Some engine.
Proof.
  unfold state_of. destruct (IfcToFragmentsConverter.ifcImporter this); split; congruence.
Qed.

(** C4. [convert()] on an uninitialized converter (never initialized, or
    after [cleanup()]) rejects with the not-initialized error, for every
    input and every options; the engine receives no call and the
    converter is left as it was. *)
Theorem convert_uninitialized_rejects
    (P : Platform) (this : IfcToFragmentsConverter.t)
    (ifcData : bytes) (options : ConversionOptions.t) :
  state_of this = Uninitialized ->
  convert P this ifcData options
  = (this, [], Throw (new_Error P not_initialized_message)).
Proof.
  intros H. apply state_of_uninitialized in H.
  unfold convert. now rewrite H.
Qed.

Lemma convert_uninitialized_rejects_witness :
  state_of (cleanup ready_converter) = Uninitialized
  /\ convert test_platform (cleanup ready_converter) mock_output ConversionOptions.empty
     = (cleanup ready_converter, [], Throw (new_Error test_platform not_initialized_message)).
Proof.
  split.
  - apply cleanup_uninitialized.
  - apply (convert_uninitialized_rejects test_platform (cleanup ready_converter)).
    apply cleanup_uninitialized.
Defined.

(** The message of a failed conversion is not the not-initialized one. *)
Lemma conversion_error_not_uninitialized (P : Platform) (detail : string) :
  new_Error P ("Failed to convert IFC to Fragments: " ++ detail)
  <> new_Error P not_initialized_message.
Proof.
  intros H. apply (f_equal AppError.message) in H. simpl in H. discriminate H.
Qed.

(** C5. After [cleanup()] then an [initialize()] that does not throw,
    the converter is Ready, and a following [convert()] reaches the
    engine instead of rejecting as not initialized; [cleanup()] on an
    uninitialized converter changes nothing (and, being a total
    function, raises nothing). *)
Theorem cleanup_then_initialize_accepts
    (P : Platform) (this : IfcToFragmentsConverter.t) :
  snd (initialize P (cleanup this)) = Ok tt ->
  let this' := fst (initialize P (cleanup this)) in
  (exists engine,
      state_of this' = Ready engine
      /\ forall ifcData options,
           snd (fst (convert P this' ifcData options))
           = [(apply_settings options engine, ifcData)]
           /\ snd (convert P this' ifcData options)
              <> Throw (new_Error P not_initialized_message))
  /\ (forall that, state_of that = Uninitialized -> cleanup that = that).
Proof.
  intros Hinit this'. split.
  - subst this'. revert Hinit. unfold initialize.
    destruct (new_IfcImporter P) as [fresh|error]; simpl; [intros _|discriminate].
    eexists. split; [reflexivity|].
    intros ifcData options. unfold convert. simpl.
    destruct (process P _ ifcData) as [out|error]; simpl.
    + split; [reflexivity|discriminate].
    + split; [reflexivity|].
      intros H. apply (conversion_error_not_uninitialized P (message_of error)).
      congruence.
  - intros that H. apply state_of_uninitialized in H.
    unfold cleanup. now rewrite H.
Qed.

Lemma cleanup_then_initialize_accepts_witness :
  snd (initialize test_platform (cleanup ready_converter)) = Ok tt
  /\ exists engine,
       state_of (fst (initialize test_platform (cleanup ready_converter))) = Ready engine.
Proof.
  split; [reflexivity|].
  destruct (cleanup_then_initialize_accepts test_platform ready_converter eq_refl)
    as [[engine [Hready _]] _].
  exists engine. exact Hready.
Defined.

(** C10. On an initialized converter, a [convert()] whose options leave
    [coordinateToOrigin] undefined leaves the importer, and so its
    [webIfcSettings], exactly as it was, whether the engine succeeds or
    throws; a call that defines it sets [COORDINATE_TO_ORIGIN] to the
    given value and keeps the other settings. *)
Theorem convert_settings_frame
    (P : Platform) (this : IfcToFragmentsConverter.t) (engine : IfcImporter.t)
    (ifcData : bytes) (options : ConversionOptions.t) :
  state_of this = Ready engine ->
  exists engine',
    state_of (fst (fst (convert P this ifcData options))) = Ready engine'
    /\ (ConversionOptions.coordinateToOrigin options = None ->
        engine' = engine /\ fst (fst (convert P this ifcData options)) = this)
    /\ (IfcImporter.webIfcSettings engine' <> IfcImporter.webIfcSettings engine ->
        ConversionOptions.coordinateToOrigin options <> None)
    /\ (forall b, ConversionOptions.coordinateToOrigin options = Some b ->
        IfcImporter.webIfcSettings engine'
        = <[ "COORDINATE_TO_ORIGIN" := SBool b ]> (IfcImporter.webIfcSettings engine)).
Proof.
  intros H. apply state_of_ready in H.
  exists (apply_settings options engine).
  assert (Hconv : fst (fst (convert P this ifcData options))
                  = {| IfcToFragmentsConverter.ifcImporter := Some (apply_settings options engine);
                       IfcToFragmentsConverter.wasmPath := IfcToFragmentsConverter.wasmPath this |}).
  { unfold convert. rewrite H.
    destruct (process P (apply_settings options engine) ifcData); reflexivity. }
  rewrite Hconv. split; [reflexivity|].
  unfold apply_settings.
  destruct (ConversionOptions.coordinateToOrigin options) as [b|]; simpl.
  - split; [discriminate|]. split; [discriminate|].
    intros b' [= <-]. reflexivity.
  - split.
    { intros _. split; [reflexivity|]. destruct this; simpl in *. now rewrite H. }
    split; [congruence|discriminate].
Qed.

Lemma convert_settings_frame_witness :
  exists engine',
    state_of (fst (fst (convert test_platform ready_converter mock_output
                                ConversionOptions.empty))) = Ready engine'
    /\ IfcImporter.webIfcSettings engine'
       = {[ "COORDINATE_TO_ORIGIN" := SBool true ]}.
Proof.
  destruct (convert_settings_frame test_platform ready_converter
              (configure test_platform "./node_modules/web-ifc/" mock_importer)
              mock_output ConversionOptions.empty eq_refl)
    as [engine' [Hstate [Hframe _]]].
  exists engine'. split; [exact Hstate|].
  destruct (Hframe eq_refl) as [-> _]. reflexivity.
Defined.

(** ** The request lifecycle *)

Section Lifecycle.

Variable P : Platform.

(** [deleteTempFile] never rejects. *)
Lemma deleteTempFile_resolves (path : string) (s : Frame.t) :
  snd (deleteTempFile P path s) = Ok tt.
Proof.
  unfold deleteTempFile, fs_unlink. unfold_js. simpl.
  destruct (World.files (Frame.world s) !! path); simpl; [|reflexivity].
  destruct (World.fault (Frame.world s) Unlink path) as [[]|]; reflexivity.
Qed.

(** What [deleteTempFile] leaves on disk. *)
Lemma deleteTempFile_files (path : string) (s : Frame.t) :
  World.files (Frame.world (fst (deleteTempFile P path s)))
  = match World.fault (Frame.world s) Unlink path with
    | Some _ => World.files (Frame.world s)
    | None => delete path (World.files (Frame.world s))
    end.
Proof.
  unfold deleteTempFile, fs_unlink. unfold_js. simpl.
  destruct (World.files (Frame.world s) !! path) eqn:E; simpl.
  - destruct (World.fault (Frame.world s) Unlink path) as [[]|]; reflexivity.
  - destruct (World.fault (Frame.world s) Unlink path); [reflexivity|].
    symmetry. now apply delete_id.
Qed.

Lemma deleteTempFile_fault (path : string) (s : Frame.t) :
  World.fault (Frame.world (fst (deleteTempFile P path s))) = World.fault (Frame.world s).
Proof.
  unfold deleteTempFile, fs_unlink. unfold_js. simpl.
  destruct (World.files (Frame.world s) !! path); simpl; [|reflexivity].
  destruct (World.fault (Frame.world s) Unlink path) as [[]|]; reflexivity.
Qed.

(** [errorHandler] writes the response and the console only. *)
Lemma errorHandler_disk (err : AppError.t) (s : Frame.t) :
  let s' := fst (errorHandler P err s) in
  World.files (Frame.world s') = World.files (Frame.world s)
  /\ World.fault (Frame.world s') = World.fault (Frame.world s)
  /\ Frame.filePath s' = Frame.filePath s.
Proof.
  unfold errorHandler. unfold_js. simpl.
  destruct non_production; simpl;
    destruct (String.eqb (AppError.name err) "MulterError"); simpl; auto;
    destruct (String.eqb (AppError.name err) "SyntaxError" && AppError.has_body err);
    simpl; auto.
Qed.

(** The conversion step touches neither the disk nor the fault table,
    and records the staged path before anything can throw. *)
Lemma processConversion_disk
    (options_of : gmap string string -> File.t -> ConversionOptions.t)
    (req : Request.t) (s : Frame.t) :
  let s' := fst (processConversion P options_of req s) in
  World.files (Frame.world s') = World.files (Frame.world s)
  /\ World.fault (Frame.world s') = World.fault (Frame.world s)
  /\ Frame.filePath s'
     = match Request.file req with
       | Some file => Some (File.path file)
       | None => Frame.filePath s
       end.
Proof.
  unfold processConversion.
  destruct (Request.file req) as [file|]; [|simpl; auto].
  unfold readFileAsUint8Array, fs_readFile, ifcConverter_convert. unfold_js. simpl.
  destruct (World.files (Frame.world s) !! File.path file); simpl; auto.
  destruct (World.fault (Frame.world s) ReadFile (File.path file)); simpl; auto.
  destruct (convert P _ _ _) as [[this' calls] [result|error]]; simpl; auto.
Qed.

(** What [upload.single] leaves behind: an accepted file is on disk at
    [req.file.path], which is under [uploadDir]; a rejected request and
    a request without file leave the disk as it was. *)
Lemma upload_single_disk (raw : Upload.t) (s : Frame.t) :
  let s1 := fst (upload_single P "ifc" raw s) in
  World.fault (Frame.world s1) = World.fault (Frame.world s)
  /\ Frame.res s1 = Frame.res s
  /\ World.ifcConverter (Frame.world s1) = World.ifcConverter (Frame.world s)
  /\ match snd (upload_single P "ifc" raw s) with
     | Throw _ => World.files (Frame.world s1) = World.files (Frame.world s)
     | Ok req =>
         Request.body req = Upload.fields raw
         /\ match Request.file req with
            | None =>
                Upload.file_part raw = None
                /\ World.files (Frame.world s1) = World.files (Frame.world s)
            | Some file =>
                exists part,
                  Upload.file_part raw = Some part
                  /\ File.originalname file = Upload.originalname part
                  /\ File.path file
                     = uploadDir ++ storage_filename P (Upload.originalname part)
                  /\ World.files (Frame.world s1)
                     = <[ File.path file := Upload.content part ]> (World.files (Frame.world s))
            end
     end.
Proof.
  unfold upload_single.
  destruct (Upload.file_part raw) as [part|]; [|simpl; auto 10].
  destruct (negb (String.eqb (Upload.fieldname part) "ifc")); [simpl; auto|].
  destruct (negb (fileFilter (Upload.mimetype part) (Upload.originalname part)));
    [simpl; auto|].
  unfold storage_destination, ensureDirectoryExists, fs_existsSync, fs_mkdir, fs_writeFile.
  unfold_js. simpl.
  destruct (negb _); simpl.
  - destruct (World.fault (Frame.world s) Mkdir uploadDir); simpl; auto.
    destruct (limits_fileSize <? _); simpl; auto.
    repeat split; auto. exists part. auto.
  - destruct (limits_fileSize <? _); simpl; auto.
    repeat split; auto. exists part. auto.
Qed.

Lemma staged_path_truthy (originalname : string) :
  Js.truthy (uploadDir ++ storage_filename P originalname) = true.
Proof. reflexivity. Qed.

(** The clean-up block of both revisions comes down to one call of
    [deleteTempFile] on the recorded path. *)
Lemma convert_route_ends_with_delete
    (route : Request.t -> (AppError.t -> M unit) -> M unit)
    (req : Request.t) (file : File.t) (s : Frame.t) :
  route = convert_route_A P \/ route = convert_route_B P ->
  Request.file req = Some file ->
  Js.truthy (File.path file) = true ->
  exists s',
    fst (route req (errorHandler P) s) = fst (deleteTempFile P (File.path file) s')
    /\ World.files (Frame.world s') = World.files (Frame.world s)
    /\ World.fault (Frame.world s') = World.fault (Frame.world s).
Proof.
  intros Hroute Hfile Htruthy.
  assert (Hmid : forall options_of s0,
             Frame.world s0 = Frame.world s ->
             let m := fst (try_catch (processConversion P options_of req)
                                     (fun error => errorHandler P error) s0) in
             Frame.filePath m = Some (File.path file)
             /\ World.files (Frame.world m) = World.files (Frame.world s)
             /\ World.fault (Frame.world m) = World.fault (Frame.world s)).
  { intros options_of s0 Hw m. subst m.
    pose proof (processConversion_disk options_of req s0) as Hp.
    simpl in Hp. rewrite Hfile, Hw in Hp. destruct Hp as (Hf & Hfa & Hpath).
    unfold try_catch.
    destruct (processConversion P options_of req s0) as [s1 [[]|error]]; simpl in *.
    - auto.
    - destruct (errorHandler_disk error s1) as (Hf' & Hfa' & Hpath').
      rewrite Hf', Hfa', Hpath'. auto. }
  destruct Hroute as [-> | ->].
  - destruct (Hmid options_A (Frame.mk (Frame.world s) (Frame.res s) None) eq_refl)
      as (Hpath & Hf & Hfa).
    eexists. split; [|split; [exact Hf|exact Hfa]].
    unfold convert_route_A, bind, let_filePath_null, try_finally, get_filePath.
    simpl. destruct (try_catch _ _ _) as [m r] eqn:Em. simpl in *.
    rewrite Hpath, Htruthy.
    pose proof (deleteTempFile_resolves (File.path file) m) as Hres.
    destruct (deleteTempFile P (File.path file) m) as [s'' [[]|e]]; simpl in *;
      [reflexivity|discriminate].
  - destruct (Hmid options_B (Frame.mk (Frame.world s) (Frame.res s) None) eq_refl)
      as (Hpath & Hf & Hfa).
    eexists. split; [|split; [exact Hf|exact Hfa]].
    unfold convert_route_B, bind, let_filePath_null, try_finally, get_filePath.
    simpl. destruct (try_catch (processConversion P options_B req) _ _) as [m r] eqn:Em.
    simpl in *. rewrite Hpath, Htruthy.
    pose proof (deleteTempFile_resolves (File.path file) m) as Hres.
    unfold try_catch at 1.
    destruct (deleteTempFile P (File.path file) m) as [s'' [[]|e]]; simpl in *;
      [reflexivity|discriminate].
Qed.

End Lifecycle.

(** A route called without [req.file] leaves the disk alone. *)
Lemma convert_route_without_file
    (P : Platform) (route : Request.t -> (AppError.t -> M unit) -> M unit)
    (req : Request.t) (s : Frame.t) :
  route = convert_route_A P \/ route = convert_route_B P ->
  Request.file req = None ->
  World.files (Frame.world (fst (route req (errorHandler P) s)))
  = World.files (Frame.world s).
Proof.
  intros [-> | ->] Hfile;
    unfold convert_route_A, convert_route_B, processConversion; rewrite Hfile;
    unfold bind, let_filePath_null, try_finally, try_catch, throw, get_filePath; simpl;
    match goal with
    | |- context [errorHandler P ?e ?s0] =>
        destruct (errorHandler_disk P e s0) as (Hf & _ & Hp);
        destruct (errorHandler P e s0) as [s1 [[]|e']]; simpl in *;
        rewrite Hp; simpl; exact Hf
    end.
Qed.




(** ** The readiness probe *)

(** [GET /api/status] answers [ready: true] in every world: the route
    never reads the converter. *)
Lemma status_ready_in_every_world (w : World.t) :
  Res.statusCode (snd (serve get_status w)) = 200
  /\ ready_of (snd (serve get_status w)) = Some (JBool true).
Proof. split; reflexivity. Qed.

(** C2 fails on the code.  With the converter never initialized, and
    again after [cleanup()], the probe still answers [ready: true]. *)
Theorem status_ready_while_uninitialized :
  state_of (World.ifcConverter (world_with ifcConverter_initial)) = Uninitialized
  /\ ready_of (snd (serve get_status (world_with ifcConverter_initial))) = Some (JBool true)
  /\ state_of (World.ifcConverter (world_with (cleanup ready_converter))) = Uninitialized
  /\ ready_of (snd (serve get_status (world_with (cleanup ready_converter))))
     = Some (JBool true).
Proof. repeat split; reflexivity. Qed.

(** ** Oversized uploads *)

(** C3 fails on the code.  An accepted file whose content exceeds
    [limits.fileSize] makes multer raise its [LIMIT_FILE_SIZE] error,
    and [errorHandler] answers every [MulterError] with status 400, not
    413; nothing stays on disk. *)
Theorem oversized_upload_answered_400
    (P : Platform) (route : Request.t -> (AppError.t -> M unit) -> M unit)
    (raw : Upload.t) (part : Upload.part) (s : Frame.t) :
  Upload.file_part raw = Some part ->
  Upload.fieldname part = "ifc" ->
  fileFilter (Upload.mimetype part) (Upload.originalname part) = true ->
  World.fault (Frame.world s) Mkdir uploadDir = None ->
  limits_fileSize < Z.of_nat (List.length (Upload.content part)) ->
  let s' := fst (post_convert P route raw s) in
  fault_shape (Frame.res s')
  = (400, Some (JStr "fail"), Some (JStr "File upload error: File too large"))
  /\ World.files (Frame.world s') = World.files (Frame.world s).
Proof.
  intros Hpart Hname Hfilter Hmkdir Hsize s'. subst s'.
  apply Z.ltb_lt in Hsize.
  unfold post_convert, upload_single.
  rewrite Hpart, Hname, Hfilter. simpl.
  unfold storage_destination, ensureDirectoryExists, fs_existsSync, fs_mkdir.
  unfold_js. simpl.
  destruct (negb _); simpl; rewrite ?Hmkdir; simpl; rewrite Hsize; simpl;
    unfold errorHandler; unfold_js; simpl;
    destruct (non_production P); simpl; split; reflexivity.
Qed.

Lemma oversized_upload_answered_400_witness :
  limits_fileSize < Z.of_nat (List.length (Upload.content oversized_part))
  /\ fault_shape
       (Frame.res (fst (post_convert test_platform (convert_route_A test_platform)
                          oversized_upload (Frame.start (world_with ready_converter)))))
     = (400, Some (JStr "fail"), Some (JStr "File upload error: File too large")).
Proof.
  assert (Hsize : limits_fileSize < Z.of_nat (List.length (Upload.content oversized_part))).
  { change (Upload.content oversized_part)
      with (repeat Byte.x00 (Z.to_nat (100 * 1024 * 1024 + 1))).
    rewrite repeat_length, Z2Nat.id; [reflexivity|discriminate]. }
  split; [exact Hsize|].
  exact (proj1 (oversized_upload_answered_400 test_platform (convert_route_A test_platform)
                  oversized_upload oversized_part (Frame.start (world_with ready_converter))
                  eq_refl eq_refl eq_refl eq_refl Hsize)).
Defined.

(** ** The success response *)

Section Responses.

Variable P : Platform.

Lemma deleteTempFile_res (path : string) (s : Frame.t) :
  Frame.res (fst (deleteTempFile P path s)) = Frame.res s.
Proof.
  unfold deleteTempFile, fs_unlink. unfold_js. simpl.
  destruct (World.files (Frame.world s) !! path); simpl; [|reflexivity].
  destruct (World.fault (Frame.world s) Unlink path) as [[]|]; reflexivity.
Qed.

(** [errorHandler] always answers, and with a JSON body. *)
Lemma errorHandler_res (err : AppError.t) (s : Frame.t) :
  snd (errorHandler P err s) = Ok tt
  /\ exists j, Res.body (Frame.res (fst (errorHandler P err s))) = Some (Res.Json j).
Proof.
  unfold errorHandler. unfold_js. simpl.
  destruct (non_production P); simpl;
    destruct (String.eqb (AppError.name err) "MulterError"); simpl; eauto;
    destruct (String.eqb (AppError.name err) "SyntaxError" && AppError.has_body err);
    simpl; eauto.
Qed.

(** The conversion step either throws and leaves the response alone, or
    fills it in from the options it derived. *)
Lemma processConversion_res
    (options_of : gmap string string -> File.t -> ConversionOptions.t)
    (req : Request.t) (s : Frame.t) :
  match processConversion P options_of req s with
  | (s', Ok _) =>
      exists file,
        Request.file req = Some file
        /\ success_response_of P (options_of (Request.body req) file) (Frame.res s')
  | (s', Throw _) => Frame.res s' = Frame.res s
  end.
Proof.
  unfold processConversion.
  destruct (Request.file req) as [file|]; [|reflexivity].
  unfold readFileAsUint8Array, fs_readFile, ifcConverter_convert. unfold_js. simpl.
  destruct (World.files (Frame.world s) !! File.path file); simpl; auto.
  destruct (World.fault (Frame.world s) ReadFile (File.path file)); simpl; auto.
  unfold convert.
  destruct (IfcToFragmentsConverter.ifcImporter _) as [imp|]; simpl; auto.
  destruct (process P _ _) as [out|error]; simpl; auto.
  exists file. split; [reflexivity|]. exists out. simpl.
  repeat split; simplify_map_eq; reflexivity.
Qed.

(** The clean-up block of either revision leaves the response alone. *)
Lemma convert_route_res
    (route : Request.t -> (AppError.t -> M unit) -> M unit)
    (options_of : gmap string string -> File.t -> ConversionOptions.t)
    (req : Request.t) (s : Frame.t) :
  revision P route options_of ->
  Frame.res (fst (route req (errorHandler P) s))
  = Frame.res (fst (try_catch (processConversion P options_of req)
                              (fun error => errorHandler P error)
                              (Frame.mk (Frame.world s) (Frame.res s) None))).
Proof.
  intros [[-> ->] | [-> ->]];
    unfold convert_route_A, convert_route_B, bind, let_filePath_null, try_finally,
      get_filePath; simpl;
    destruct (try_catch _ _ _) as [m r]; simpl;
    destruct (Frame.filePath m) as [path|]; simpl; try reflexivity;
    destruct (Js.truthy path); simpl; try reflexivity.
  - pose proof (deleteTempFile_res path m) as Hres.
    destruct (deleteTempFile P path m) as [s'' [[]|e]]; exact Hres.
  - pose proof (deleteTempFile_res path m) as Hres.
    pose proof (deleteTempFile_resolves P path m) as Hok.
    unfold try_catch.
    destruct (deleteTempFile P path m) as [s'' [[]|e]]; simpl in *;
      [exact Hres|discriminate].
Qed.

(** A binary body is the mark of a successful conversion: the response
    then is the success response for the options the revision derives
    from the form fields and the uploaded file's name. *)
Lemma post_convert_success
    (route : Request.t -> (AppError.t -> M unit) -> M unit)
    (options_of : gmap string string -> File.t -> ConversionOptions.t)
    (raw : Upload.t) (w : World.t) (data : bytes) :
  revision P route options_of ->
  Res.body (snd (serve (post_convert P route raw) w)) = Some (Res.Buffer data) ->
  exists part file,
    Upload.file_part raw = Some part
    /\ File.originalname file = Upload.originalname part
    /\ success_response_of P (options_of (Upload.fields raw) file)
         (snd (serve (post_convert P route raw) w)).
Proof.
  intros Hrev. unfold serve, post_convert. simpl.
  pose proof (upload_single_disk P raw (Frame.start w)) as Hup. simpl in Hup.
  destruct (upload_single P "ifc" raw (Frame.start w)) as [s1 [req|error]]; simpl in *.
  - destruct Hup as (_ & Hres & _ & Hbody & Hfile).
    rewrite (convert_route_res route options_of req s1 Hrev).
    pose proof (processConversion_res options_of req
                  (Frame.mk (Frame.world s1) (Frame.res s1) None)) as Hp.
    unfold try_catch.
    destruct (processConversion P options_of req _) as [s2 [[]|error]]; simpl in *.
    + intros _. destruct Hp as (file & Hreq & Hsucc).
      rewrite Hreq in Hfile. destruct Hfile as (part & Hpart & Hname & _).
      exists part, file. rewrite <- Hbody. auto.
    + destruct (errorHandler_res error s2) as (_ & j & Hj). rewrite Hj. discriminate.
  - destruct (errorHandler_res error s1) as (_ & j & Hj). rewrite Hj. discriminate.
Qed.

End Responses.

(** ** Derived options *)

Lemma coordinateToOrigin_of_false (body : gmap string string) :
  coordinateToOrigin_of body = false <-> body !! "coordinateToOrigin" = Some "false".
Proof.
  unfold coordinateToOrigin_of.
  destruct (body !! "coordinateToOrigin") as [v|]; [|split; discriminate].
  destruct (String.eqb v "false") eqn:E.
  - apply String.eqb_eq in E. subst v. split; reflexivity.
  - apply String.eqb_neq in E.
    assert (H : match v with "false" => false | _ => true end = true).
    { repeat (let a := fresh "a" in
              destruct v as [|a v]; [reflexivity|];
              destruct a as [[] [] [] [] [] [] [] []]; try reflexivity).
      destruct v; [congruence|reflexivity]. }
    rewrite H. split; [discriminate|congruence].
Qed.

(** C6. In both revisions the derived [coordinateToOrigin] is [false]
    exactly when the form field is the string ["false"], and [true] for
    an absent field and for every other string; on success the options
    nested in the metadata header carry that boolean. *)
Theorem coordinateToOrigin_derivation
    (P : Platform) (route : Request.t -> (AppError.t -> M unit) -> M unit)
    (options_of : gmap string string -> File.t -> ConversionOptions.t)
    (raw : Upload.t) (w : World.t) :
  revision P route options_of ->
  exists b : bool,
    (b = true <-> Upload.fields raw !! "coordinateToOrigin" <> Some "false")
    /\ (Upload.fields raw !! "coordinateToOrigin" = None -> b = true)
    /\ (forall file,
          ConversionOptions.coordinateToOrigin (options_of (Upload.fields raw) file)
          = Some b)
    /\ (forall data,
          Res.body (snd (serve (post_convert P route raw) w)) = Some (Res.Buffer data) ->
          metadata_of (snd (serve (post_convert P route raw) w))
                      ["options"; "coordinateToOrigin"]
          = Some (JBool b)).
Proof.
  intros Hrev. exists (coordinateToOrigin_of (Upload.fields raw)).
  pose proof (coordinateToOrigin_of_false (Upload.fields raw)) as Hfalse.
  split; [|split; [|split]].
  - destruct (coordinateToOrigin_of (Upload.fields raw)).
    + split; [|reflexivity]. intros _ H. apply Hfalse in H. discriminate.
    + split; [discriminate|]. intros H. exfalso. apply H, Hfalse. reflexivity.
  - intros Habsent. destruct (coordinateToOrigin_of (Upload.fields raw)); [reflexivity|].
    rewrite (proj1 Hfalse eq_refl) in Habsent. discriminate.
  - intros file. destruct Hrev as [[_ ->] | [_ ->]]; reflexivity.
  - intros data Hbody.
    destruct (post_convert_success P route options_of raw w data Hrev Hbody)
      as (part & file & _ & _ & out & _ & _ & _ & _ & Hmeta).
    unfold metadata_of. rewrite Hmeta.
    destruct Hrev as [[_ ->] | [_ ->]]; reflexivity.
Qed.

Lemma coordinateToOrigin_derivation_witness :
  let raw := sample_upload "sample.ifc" {[ "coordinateToOrigin" := "false" ]} in
  let r := snd (serve (post_convert test_platform (convert_route_A test_platform) raw)
                  (world_with ready_converter)) in
  metadata_of r ["options"; "coordinateToOrigin"] = Some (JBool false).
Proof.
  intros raw r.
  destruct (coordinateToOrigin_derivation test_platform (convert_route_A test_platform)
              options_A raw (world_with ready_converter) (or_introl (conj eq_refl eq_refl)))
    as (b & Hb & _ & _ & Hmeta).
  assert (b = false) as ->.
  { destruct b; [|reflexivity]. exfalso. now apply (proj1 Hb eq_refl). }
  exact (Hmeta mock_output eq_refl).
Defined.

Lemma startsWith_ifc_app (s : string) :
  s <> "" ->
  Js.startsWith s ".ifc" = false ->
  Js.startsWith (s ++ ".ifc") ".ifc" = false.
Proof.
  intros Hne H.
  destruct s as [|c0 [|c1 [|c2 [|c3 s]]]]; [congruence| | | |];
    cbv [Js.startsWith String.append] in *;
    repeat match goal with
           | |- context [Ascii.eqb ?a ?b] => destruct (Ascii.eqb_spec a b); subst
           | H : context [Ascii.eqb ?a ?b] |- _ => destruct (Ascii.eqb_spec a b); subst
           end;
    try reflexivity; try congruence; try discriminate.
  destruct s; discriminate H.
Qed.

(** Removing the first [".ifc"] of [stem.ifc] gives [stem] when [stem]
    holds no [".ifc"] of its own. *)
Lemma replace_ifc_suffix (stem : string) :
  Js.includes stem ".ifc" = false ->
  Js.replace (stem ++ ".ifc") ".ifc" "" = stem.
Proof.
  induction stem as [|c stem IH]; intros H; [reflexivity|].
  cbn [includes] in H. apply orb_false_iff in H as [Hhere Hlater].
  change (String c stem ++ ".ifc") with (String c (stem ++ ".ifc")).
  cbn [Js.replace].
  change (String c (stem ++ ".ifc")) with (String c stem ++ ".ifc") at 1.
  rewrite startsWith_ifc_app by (assumption || discriminate).
  now rewrite IH.
Qed.

(** C7, as amended.  On success, in both revisions, there is one name
    that the [Content-Disposition] header carries followed by [.frag]
    and that the metadata header carries as [name]; it is the [name]
    form field when that field is present and not empty, and, when the
    field is absent and the original filename is [stem.ifc] with a
    lower-case extension and no other [.ifc] in it, it is [stem]. *)
Theorem name_derivation
    (P : Platform) (route : Request.t -> (AppError.t -> M unit) -> M unit)
    (options_of : gmap string string -> File.t -> ConversionOptions.t)
    (raw : Upload.t) (w : World.t) (data : bytes) :
  revision P route options_of ->
  Res.body (snd (serve (post_convert P route raw) w)) = Some (Res.Buffer data) ->
  exists part name,
    Upload.file_part raw = Some part
    /\ Res.headers (snd (serve (post_convert P route raw) w)) !! "Content-Disposition"
       = Some (Res.Text ("attachment; filename=" ++ Js.dquote ++ name ++ ".frag"
                           ++ Js.dquote))
    /\ metadata_of (snd (serve (post_convert P route raw) w)) ["name"] = Some (JStr name)
    /\ metadata_of (snd (serve (post_convert P route raw) w)) ["options"; "name"]
       = Some (JStr name)
    /\ (forall n, Upload.fields raw !! "name" = Some n -> n <> "" -> name = n)
    /\ (Upload.fields raw !! "name" = None ->
        forall stem,
          Upload.originalname part = stem ++ ".ifc" ->
          Js.includes stem ".ifc" = false ->
          name = stem).
Proof.
  intros Hrev Hbody.
  destruct (post_convert_success P route options_of raw w data Hrev Hbody)
    as (part & file & Hpart & Hname & out & _ & _ & Hdisp & _ & Hmeta).
  assert (Hopt : exists name,
             options_of (Upload.fields raw) file
             = route_options name (coordinateToOrigin_of (Upload.fields raw))
             /\ (forall n, Upload.fields raw !! "name" = Some n -> n <> "" -> name = n)
             /\ (Upload.fields raw !! "name" = None ->
                 name = Js.replace (Upload.originalname part) ".ifc" "")).
  { destruct Hrev as [[_ ->] | [_ ->]]; unfold options_A, options_B; rewrite Hname;
      eexists; (split; [reflexivity|]); split.
    - intros n Hn Hne. rewrite Hn. unfold Js.or_else, Js.truthy.
      destruct (String.eqb_spec n ""); [contradiction|reflexivity].
    - intros Hn. now rewrite Hn.
    - intros n Hn _. now rewrite Hn.
    - intros Hn. now rewrite Hn. }
  destruct Hopt as (name & Hopt & Hfield & Hfile).
  rewrite Hopt in Hdisp, Hmeta.
  exists part, name. split; [exact Hpart|]. split; [exact Hdisp|].
  unfold metadata_of. rewrite Hmeta.
  split; [reflexivity|]. split; [reflexivity|]. split; [exact Hfield|].
  intros Habsent stem Hstem Hclean.
  rewrite (Hfile Habsent), Hstem. now apply replace_ifc_suffix.
Qed.

Lemma name_derivation_witness :
  let raw := sample_upload "sample.ifc" {[ "name" := "Acme" ]} in
  let r := snd (serve (post_convert test_platform (convert_route_A test_platform) raw)
                  (world_with ready_converter)) in
  exists name,
    metadata_of r ["name"] = Some (JStr name) /\ name = "Acme".
Proof.
  intros raw r.
  destruct (name_derivation test_platform (convert_route_A test_platform) options_A raw
              (world_with ready_converter) mock_output
              (or_introl (conj eq_refl eq_refl)) eq_refl)
    as (part & name & _ & _ & Hmeta & _ & Hfield & _).
  exists name. split; [exact Hmeta|].
  apply Hfield; [reflexivity|discriminate].
Defined.

(** C7 as stated fails.  A file named [MODEL.IFC] passes the filter,
    the request succeeds, and the derived name keeps the extension; and
    in the first revision an empty [name] field is not used. *)
Lemma name_derivation_counterexample :
  let upper := sample_upload "MODEL.IFC" ∅ in
  let empty := sample_upload "sample.ifc" {[ "name" := "" ]} in
  let serveA raw :=
    snd (serve (post_convert test_platform (convert_route_A test_platform) raw)
           (world_with ready_converter)) in
  (Res.statusCode (serveA upper) = 200
   /\ spec_name (Upload.fields upper) "MODEL.IFC" = "MODEL"
   /\ metadata_of (serveA upper) ["name"] = Some (JStr "MODEL.IFC")
   /\ Res.headers (serveA upper) !! "Content-Disposition"
      = Some (Res.Text (content_disposition "MODEL.IFC")))
  /\ (Res.statusCode (serveA empty) = 200
      /\ spec_name (Upload.fields empty) "sample.ifc" = ""
      /\ metadata_of (serveA empty) ["name"] = Some (JStr "sample")).
Proof. vm_compute. repeat split; reflexivity. Qed.

(** ** The two revisions of the route *)

Lemma options_agree (body : gmap string string) (file : File.t) :
  body !! "name" <> Some "" -> options_A body file = options_B body file.
Proof.
  intros H. unfold options_A, options_B, Js.or_else, Js.truthy.
  destruct (body !! "name") as [n|]; [|reflexivity].
  destruct (String.eqb_spec n ""); [subst; contradiction|reflexivity].
Qed.

(** C9, as amended.  For every request whose [name] field is absent or
    a non-empty string, the two revisions of [POST /api/convert] end
    in the same outcome, the same response (status, headers, body) and
    the same world (converter, engine calls, disk, console). *)
Theorem revisions_agree (P : Platform) (raw : Upload.t) (s : Frame.t) :
  Upload.fields raw !! "name" <> Some "" ->
  post_convert P (convert_route_A P) raw s = post_convert P (convert_route_B P) raw s.
Proof.
  intros Hname. unfold post_convert.
  pose proof (upload_single_disk P raw s) as Hup. simpl in Hup.
  destruct (upload_single P "ifc" raw s) as [s1 [req|error]]; simpl in *; [|reflexivity].
  destruct Hup as (_ & _ & _ & Hbody & _).
  assert (Hproc : processConversion P options_A req = processConversion P options_B req).
  { unfold processConversion. destruct (Request.file req) as [file|]; [|reflexivity].
    rewrite (options_agree (Request.body req) file) by (rewrite Hbody; exact Hname).
    reflexivity. }
  unfold convert_route_A, convert_route_B. rewrite Hproc.
  unfold bind, let_filePath_null, try_finally, get_filePath. simpl.
  destruct (try_catch _ _ _) as [m r]. simpl.
  destruct (Frame.filePath m) as [path|]; [|reflexivity].
  destruct (Js.truthy path); [|reflexivity].
  pose proof (deleteTempFile_resolves P path m) as Hok.
  unfold try_catch.
  destruct (deleteTempFile P path m) as [s'' [[]|e]]; simpl in *;
    [reflexivity|discriminate].
Qed.

Lemma revisions_agree_witness :
  let raw := sample_upload "sample.ifc" {[ "name" := "Acme" ]} in
  let s := Frame.start (world_with ready_converter) in
  post_convert test_platform (convert_route_A test_platform) raw s
  = post_convert test_platform (convert_route_B test_platform) raw s.
Proof.
  intros raw s. apply (revisions_agree test_platform raw s). discriminate.
Defined.

(** C9 as stated fails: with an empty [name] field both revisions
    answer 200, the first under the name taken from the filename, the
    second under the empty name. *)
Lemma revisions_differ_on_empty_name :
  let raw := sample_upload "sample.ifc" {[ "name" := "" ]} in
  let serve_with route :=
    snd (serve (post_convert test_platform route raw) (world_with ready_converter)) in
  Res.headers (serve_with (convert_route_A test_platform)) !! "Content-Disposition"
  = Some (Res.Text (content_disposition "sample"))
  /\ Res.headers (serve_with (convert_route_B test_platform)) !! "Content-Disposition"
     = Some (Res.Text (content_disposition ""))
  /\ metadata_of (serve_with (convert_route_A test_platform)) ["name"]
     = Some (JStr "sample")
  /\ metadata_of (serve_with (convert_route_B test_platform)) ["name"]
     = Some (JStr "")
  /\ serve_with (convert_route_A test_platform)
     <> serve_with (convert_route_B test_platform).
Proof.
  vm_compute. repeat split; try reflexivity. discriminate.
Qed.

(** ** Fault translation *)

Lemma non_production_spec (P : Platform) :
  non_production P = false <-> NODE_ENV P = Some "production".
Proof.
  unfold non_production.
  destruct (NODE_ENV P) as [v|]; [|split; discriminate].
  destruct (String.eqb_spec v "production") as [->|Hne]; [split; reflexivity|].
  assert (H : match v with "production" => false | _ => true end = true).
  { repeat (let a := fresh "a" in
            destruct v as [|a v]; [reflexivity|];
            destruct a as [[] [] [] [] [] [] [] []]; try reflexivity).
    destruct v; [congruence|reflexivity]. }
  rewrite H. split; [discriminate|congruence].
Qed.

(** C8, as amended.  For every fault given to [errorHandler]: in
    production the body has no [stack]; outside production the body has
    the error's stack when the fault reaches the general response, and
    no [stack] when it is a [MulterError] or a body-parser
    [SyntaxError], which are answered early; the status code, the
    [status] discriminator and the [message] do not depend on the
    mode.  The 404 answer to an unmatched route has no [stack] in any
    mode. *)
Theorem stack_only_outside_production (P : Platform) (err : AppError.t) (s : Frame.t) :
  let r := Frame.res (fst (errorHandler P err s)) in
  (NODE_ENV P = Some "production" -> stack_of r = None)
  /\ (NODE_ENV P <> Some "production" ->
      stack_of r = if answered_early err then None else JStr <$> AppError.stack err)
  /\ (forall (P' : Platform) (s' : Frame.t),
        fault_shape (Frame.res (fst (errorHandler P' err s'))) = fault_shape r)
  /\ (forall (req : Request.t) (s' : Frame.t),
        stack_of (Frame.res (fst (notFoundHandler req s'))) = None).
Proof.
  pose proof (non_production_spec P) as Hmode.
  assert (Hshape : forall Q t,
             fault_shape (Frame.res (fst (errorHandler Q err t)))
             = if String.eqb (AppError.name err) "MulterError" then
                 (400, Some (JStr "fail"),
                  Some (JStr ("File upload error: " ++ AppError.message err)))
               else if String.eqb (AppError.name err) "SyntaxError" && AppError.has_body err
               then (400, Some (JStr "fail"), Some (JStr "Invalid JSON in request body"))
               else (statusCode_or_500 err,
                     Some (JStr (Js.or_else (AppError.status err) "error")),
                     Some (JStr (match AppError.isOperational err with
                                 | Some true => AppError.message err
                                 | _ => "Internal server error"
                                 end)))).
  { intros Q t. unfold errorHandler. unfold_js. simpl.
    destruct (non_production Q); simpl;
      destruct (String.eqb (AppError.name err) "MulterError"); simpl; try reflexivity;
      destruct (String.eqb (AppError.name err) "SyntaxError" && AppError.has_body err);
      simpl; reflexivity. }
  intros r. subst r. split; [|split; [|split]]; [| | |reflexivity].
  - intros Hprod. apply Hmode in Hprod.
    unfold stack_of, errorHandler. unfold_js. simpl. rewrite Hprod. simpl.
    destruct (String.eqb (AppError.name err) "MulterError"); simpl; [reflexivity|].
    destruct (String.eqb (AppError.name err) "SyntaxError" && AppError.has_body err);
      reflexivity.
  - intros Hdev.
    assert (Hnp : non_production P = true).
    { destruct (non_production P) eqn:E; [reflexivity|].
      exfalso. apply Hdev, non_production_spec, E. }
    unfold stack_of, answered_early, errorHandler. unfold_js. simpl. rewrite Hnp. simpl.
    destruct (String.eqb (AppError.name err) "MulterError"); simpl; [reflexivity|].
    destruct (String.eqb (AppError.name err) "SyntaxError" && AppError.has_body err);
      simpl; [reflexivity|].
    destruct (AppError.stack err); reflexivity.
  - intros P' s'. now rewrite !Hshape.
Qed.

Lemma stack_only_outside_production_witness :
  let err := new_ApiError (mock_platform (Some "production")) no_file_message 400 in
  let prod := Frame.res (fst (errorHandler (mock_platform (Some "production")) err
                                (Frame.start (world_with ready_converter)))) in
  let dev := Frame.res (fst (errorHandler (mock_platform (Some "development")) err
                               (Frame.start (world_with ready_converter)))) in
  stack_of prod = None
  /\ stack_of dev = Some (JStr ("Error: " ++ no_file_message))
  /\ fault_shape dev = fault_shape prod.
Proof.
  intros err prod dev.
  split; [|split].
  - apply (stack_only_outside_production (mock_platform (Some "production")) err).
    reflexivity.
  - apply (stack_only_outside_production (mock_platform (Some "development")) err).
    discriminate.
  - apply (stack_only_outside_production (mock_platform (Some "production")) err).
Defined.

(** C8 as stated fails: in development mode, a file sent under another
    field name is answered 400 by the [MulterError] branch, and that
    body has no [stack] although the error carries one. *)
Lemma multer_fault_has_no_stack_in_development :
  let dev := mock_platform (Some "development") in
  let raw :=
    {| Upload.file_part :=
         Some (Upload.mk_part "wrongfield" "sample.ifc" "application/octet-stream"
                 [Byte.x49; Byte.x46; Byte.x43]);
       Upload.fields := ∅;
       Upload.originalUrl := "/api/convert" |} in
  let r := snd (serve (post_convert dev (convert_route_A dev) raw)
                  (world_with ready_converter)) in
  non_production dev = true
  /\ AppError.stack (new_MulterError dev "LIMIT_UNEXPECTED_FILE" "Unexpected field")
     = Some "Error: Unexpected field"
  /\ fault_shape r
     = (400, Some (JStr "fail"), Some (JStr "File upload error: Unexpected field"))
  /\ stack_of r = None.
Proof. vm_compute. repeat split; reflexivity. Qed.

(** * Further properties of the code *)

(** ** The converter service, continued *)

(** X1. When the engine constructor throws, [initialize()] rejects with
    the wrapped message and the converter keeps the handle it had: a
    converter that was Ready still converts, exactly as before the
    failed call. *)
Theorem failed_initialize_keeps_handle
    (P : Platform) (this : IfcToFragmentsConverter.t) (error : Thrown) :
  new_IfcImporter P = Throw error ->
  snd (initialize P this)
  = Throw (new_Error P ("Failed to initialize IFC importer: " ++ message_of error))
  /\ state_of (fst (initialize P this)) = state_of this
  /\ forall ifcData options,
       convert P (fst (initialize P this)) ifcData options = convert P this ifcData options.
Proof.
  intros H. unfold initialize. rewrite H. simpl. auto.
Qed.

Lemma failed_initialize_keeps_handle_witness :
  state_of (fst (initialize broken_platform ready_converter)) = state_of ready_converter
  /\ snd (convert broken_platform (fst (initialize broken_platform ready_converter))
           mock_output ConversionOptions.empty)
     = snd (convert broken_platform ready_converter mock_output ConversionOptions.empty).
Proof.
  destruct (failed_initialize_keeps_handle broken_platform ready_converter
              (ThrownValue "wasm not found") eq_refl) as (_ & Hstate & Hconv).
  split; [exact Hstate|]. now rewrite Hconv.
Defined.

Lemma fold_add_classes (ids : list Z) (start : gset Z) (x : Z) :
  x ∈ fold_left (fun acc classId => {[ classId ]} ∪ acc) ids start
  <-> x ∈ ids \/ x ∈ start.
Proof.
  revert start. induction ids as [|i ids IH]; intros start; simpl.
  - split; [auto|]. intros [H|H]; [|exact H]. inversion H.
  - rewrite IH, elem_of_cons, elem_of_union, elem_of_singleton. tauto.
Qed.

(** X2. A successful [initialize()] leaves a Ready engine, whatever the
    converter held before: its settings are exactly
    [{COORDINATE_TO_ORIGIN: true}]; the abstract classes are those of
    the fresh importer plus the sixteen property classes, none removed;
    the relation [IFCRELDEFINESBYPROPERTIES] is present, with the fresh
    importer's entry when it had one and the default pair otherwise;
    every other relation is as the fresh importer had it. *)
Theorem initialize_configures_engine
    (P : Platform) (this : IfcToFragmentsConverter.t) (fresh : IfcImporter.t) :
  new_IfcImporter P = Ok fresh ->
  exists engine,
    state_of (fst (initialize P this)) = Ready engine
    /\ snd (initialize P this) = Ok tt
    /\ IfcImporter.wasm_path engine = IfcToFragmentsConverter.wasmPath this
    /\ IfcImporter.webIfcSettings engine = {[ "COORDINATE_TO_ORIGIN" := SBool true ]}
    /\ (forall classId,
          classId ∈ IfcImporter.classes_abstract engine
          <-> classId ∈ propertyClasses P \/ classId ∈ IfcImporter.classes_abstract fresh)
    /\ IfcImporter.relations engine !! WEBIFC.IFCRELDEFINESBYPROPERTIES (webifc P)
       = Some (default ("RelatingPropertyDefinition", "RelatedObjects")
                 (IfcImporter.relations fresh
                    !! WEBIFC.IFCRELDEFINESBYPROPERTIES (webifc P)))
    /\ (forall rel,
          rel <> WEBIFC.IFCRELDEFINESBYPROPERTIES (webifc P) ->
          IfcImporter.relations engine !! rel = IfcImporter.relations fresh !! rel).
Proof.
  intros H. exists (configure P (IfcToFragmentsConverter.wasmPath this) fresh).
  unfold initialize. rewrite H.
  split; [reflexivity|]. split; [reflexivity|]. split; [reflexivity|].
  split; [reflexivity|].
  unfold configure. cbn [IfcImporter.classes_abstract IfcImporter.relations].
  split; [intros classId; apply fold_add_classes|].
  destruct (IfcImporter.relations fresh !! WEBIFC.IFCRELDEFINESBYPROPERTIES (webifc P))
    as [entry|] eqn:E; cbn [default].
  - split; [exact E|reflexivity].
  - split; [apply lookup_insert_eq|].
    intros rel Hne. now apply lookup_insert_ne.
Qed.

Lemma initialize_configures_engine_witness :
  exists engine,
    state_of (fst (initialize test_platform ifcConverter_initial)) = Ready engine
    /\ (17 ∈ IfcImporter.classes_abstract engine -> False)
    /\ 16 ∈ IfcImporter.classes_abstract engine.
Proof.
  destruct (initialize_configures_engine test_platform ifcConverter_initial mock_importer
              eq_refl) as (engine & Hstate & _ & _ & _ & Hclasses & _).
  exists engine. split; [exact Hstate|]. split.
  - intros Hin. apply Hclasses in Hin. destruct Hin as [Hin|Hin]; [|set_solver].
    vm_compute in Hin. repeat (apply elem_of_cons in Hin as [Hin|Hin]; [discriminate|]).
    inversion Hin.
  - apply Hclasses. left. vm_compute. repeat constructor.
Defined.





(** ** File utilities *)



(** X5. When the operating system refuses to unlink an existing file,
    [deleteTempFile] still resolves: the file stays, nothing else in the
    world changes, and exactly one console entry is added, naming the
    path and carrying the error with the refusal's code. *)
Theorem deleteTempFile_refusal_logged
    (P : Platform) (path : string) (s : Frame.t) (content : bytes) (e : Errno) :
  World.files (Frame.world s) !! path = Some content ->
  World.fault (Frame.world s) Unlink path = Some e ->
  let s' := fst (deleteTempFile P path s) in
  snd (deleteTempFile P path s) = Ok tt
  /\ World.files (Frame.world s') = World.files (Frame.world s)
  /\ World.ifcConverter (Frame.world s') = World.ifcConverter (Frame.world s)
  /\ Frame.res s' = Frame.res s
  /\ World.console (Frame.world s')
     = (World.console (Frame.world s)
        ++ [(("Failed to delete temp file " ++ path ++ ":")%string,
             Some (new_ErrnoException P (errno_code e) Unlink path))])%list.
Proof.
  intros Hfile Hfault. unfold deleteTempFile, fs_unlink. unfold_js. simpl.
  rewrite Hfile, Hfault. destruct e; simpl; repeat split; reflexivity.
Qed.

Lemma deleteTempFile_refusal_logged_witness :
  let path := "uploads/kept.ifc" in
  let w := world_refusing_unlink ready_converter in
  let s :=
    Frame.start
      {| World.ifcConverter := World.ifcConverter w;
         World.engine_log := [];
         World.files := {[ path := mock_output ]};
         World.dirs := ∅;
         World.fault := World.fault w;
         World.console := [] |} in
  snd (deleteTempFile test_platform path s) = Ok tt
  /\ World.files (Frame.world (fst (deleteTempFile test_platform path s))) !! path
     = Some mock_output.
Proof.
  intros path w s.
  destruct (deleteTempFile_refusal_logged test_platform path s mock_output EPERM
              eq_refl eq_refl) as (Hok & Hfiles & _).
  split; [exact Hok|]. now rewrite Hfiles.
Defined.

(** X6. [ensureDirectoryExists] on a path that exists changes nothing
    and cannot fail, even where [mkdir] would be refused; on a missing
    path it creates the directory, leaves the files alone, and a second
    call changes nothing; when [mkdir] is refused it rejects with the
    refusal's code and the world is as before. *)
Theorem ensureDirectoryExists_cases (P : Platform) (dirPath : string) (s : Frame.t) :
  let present :=
    bool_decide (dirPath ∈ World.dirs (Frame.world s))
    || bool_decide (is_Some (World.files (Frame.world s) !! dirPath)) in
  (present = true -> ensureDirectoryExists P dirPath s = (s, Ok tt))
  /\ (present = false ->
      World.fault (Frame.world s) Mkdir dirPath = None ->
      let s' := fst (ensureDirectoryExists P dirPath s) in
      snd (ensureDirectoryExists P dirPath s) = Ok tt
      /\ dirPath ∈ World.dirs (Frame.world s')
      /\ World.files (Frame.world s') = World.files (Frame.world s)
      /\ ensureDirectoryExists P dirPath s' = (s', Ok tt))
  /\ (present = false ->
      forall e,
        World.fault (Frame.world s) Mkdir dirPath = Some e ->
        ensureDirectoryExists P dirPath s
        = (s, Throw (new_ErrnoException P (errno_code e) Mkdir dirPath))).
Proof.
  intros present. subst present.
  unfold ensureDirectoryExists, fs_existsSync, fs_mkdir. unfold_js. simpl.
  split; [|split].
  - intros H. now rewrite H.
  - intros H Hfault. rewrite H. simpl. rewrite Hfault. simpl.
    split; [reflexivity|]. split; [set_solver|]. split; [reflexivity|].
    rewrite bool_decide_eq_true_2 by set_solver. reflexivity.
  - intros H e Hfault. rewrite H. simpl. now rewrite Hfault.
Qed.

Lemma ensureDirectoryExists_cases_witness :
  let s := Frame.start (world_with ready_converter) in
  uploadDir ∈ World.dirs (Frame.world (fst (ensureDirectoryExists test_platform uploadDir s))).
Proof.
  intros s.
  destruct (ensureDirectoryExists_cases test_platform uploadDir s) as (_ & Hcreate & _).
  destruct (Hcreate eq_refl eq_refl) as (_ & Hin & _). exact Hin.
Defined.

(** ** The upload filter and the default name *)

Lemma string_app_cons (c : ascii) (a b : string) :
  String c a ++ b = String c (a ++ b).
Proof. reflexivity. Qed.

Lemma string_length_app (a b : string) :
  String.length (a ++ b) = (String.length a + String.length b)%nat.
Proof.
  induction a as [|c a IH]; [reflexivity|].
  rewrite string_app_cons. cbn [String.length]. now rewrite IH.
Qed.

Lemma toLowerCase_app (a b : string) :
  Js.toLowerCase (a ++ b) = Js.toLowerCase a ++ Js.toLowerCase b.
Proof.
  induction a as [|c a IH]; [reflexivity|].
  rewrite string_app_cons. cbn [Js.toLowerCase]. now rewrite IH.
Qed.

Lemma toLowerCase_length (s : string) :
  String.length (Js.toLowerCase s) = String.length s.
Proof. induction s as [|c s IH]; [reflexivity|]. cbn. now rewrite IH. Qed.

Lemma toLowerCase_drop (n : nat) (s : string) :
  Js.toLowerCase (Js.drop n s) = Js.drop n (Js.toLowerCase s).
Proof.
  revert s. induction n as [|n IH]; intros [|c s]; try reflexivity. cbn. apply IH.
Qed.

Lemma drop_app_length (a b : string) : Js.drop (String.length a) (a ++ b) = b.
Proof. induction a as [|c a IH]; [reflexivity|]. rewrite string_app_cons. cbn. exact IH. Qed.

Lemma drop_split (n : nat) (s : string) : exists stem, s = stem ++ Js.drop n s.
Proof.
  revert s. induction n as [|n IH]; intros s.
  - exists "". reflexivity.
  - destruct s as [|c s]; [exists ""; reflexivity|].
    destruct (IH s) as [stem Hstem]. exists (String c stem).
    rewrite string_app_cons. cbn [Js.drop]. now rewrite <- Hstem.
Qed.

(** [endsWith] holds exactly of the strings that are some stem
    followed by the suffix. *)
Lemma endsWith_spec (s p : string) :
  Js.endsWith s p = true <-> exists stem, s = stem ++ p.
Proof.
  unfold Js.endsWith. split.
  - intros H. apply andb_true_iff in H as [_ H]. apply String.eqb_eq in H.
    destruct (drop_split (String.length s - String.length p) s) as [stem Hstem].
    exists stem. now rewrite H in Hstem.
  - intros [stem ->]. rewrite string_length_app.
    apply andb_true_iff. split; [apply Nat.leb_le; lia|].
    replace (String.length stem + String.length p - String.length p)%nat
      with (String.length stem) by lia.
    rewrite drop_app_length. apply String.eqb_refl.
Qed.

(** X7. The upload filter accepts a file exactly when its MIME type is
    [application/x-step] or its name is some stem followed by [.ifc] in
    any mix of upper and lower case; the MIME type plays no part once
    the extension matches, and the extension none once the type does. *)
Theorem fileFilter_accepts (mimetype originalname : string) :
  fileFilter mimetype originalname = true
  <-> mimetype = "application/x-step"
      \/ exists stem ext,
           originalname = stem ++ ext /\ Js.toLowerCase ext = ".ifc".
Proof.
  unfold fileFilter. rewrite orb_true_iff, String.eqb_eq. split; intros [H|H]; auto.
  - right. unfold Js.endsWith in H. apply andb_true_iff in H as [_ H].
    apply String.eqb_eq in H. rewrite toLowerCase_length in H.
    rewrite <- toLowerCase_drop in H.
    destruct (drop_split (String.length originalname - String.length ".ifc") originalname)
      as [stem Hstem].
    eauto.
  - right. destruct H as (stem & ext & -> & Hext).
    apply endsWith_spec. exists (Js.toLowerCase stem).
    now rewrite toLowerCase_app, Hext.
Qed.

Lemma startsWith_split (s p : string) :
  Js.startsWith s p = true -> s = p ++ Js.drop (String.length p) s.
Proof.
  revert s. induction p as [|a p IH]; intros s H; [reflexivity|].
  destruct s as [|b s]; [discriminate|]. cbn in H.
  destruct (Ascii.eqb_spec a b) as [->|]; [|discriminate].
  rewrite string_app_cons. cbn [String.length Js.drop]. now rewrite <- (IH s H).
Qed.

Lemma startsWith_app (p rest : string) : Js.startsWith (p ++ rest) p = true.
Proof.
  induction p as [|a p IH]; [destruct rest; reflexivity|].
  rewrite string_app_cons. cbn. now rewrite Ascii.eqb_refl.
Qed.

Lemma replace_absent (s p rep : string) :
  Js.includes s p = false -> Js.replace s p rep = s.
Proof.
  induction s as [|c s IH]; intros H; cbn [Js.includes] in H;
    apply orb_false_iff in H as [Hhere Hlater].
  - cbn [Js.replace]. now rewrite Hhere.
  - cbn [Js.replace]. rewrite Hhere. now rewrite IH.
Qed.

(** What [name.replace(".ifc", "")] does: nothing when the name holds
    no lower-case [.ifc]; otherwise it removes the first one, and only
    that one. *)
Lemma replace_first_occurrence (s p : string) :
  (Js.includes s p = false /\ Js.replace s p "" = s)
  \/ exists pre post,
       s = pre ++ p ++ post
       /\ Js.replace s p "" = pre ++ post
       /\ forall pre' post', s = pre' ++ p ++ post' ->
                             (String.length pre <= String.length pre')%nat.
Proof.
  induction s as [|c s IH].
  - destruct (Js.startsWith "" p) eqn:Hhere.
    + right. exists "", (Js.drop (String.length p) "").
      split; [now apply startsWith_split|].
      split; [cbn [Js.replace]; now rewrite Hhere|].
      intros. cbn. lia.
    + left. split; [cbn [Js.includes]; now rewrite Hhere|].
      cbn [Js.replace]. now rewrite Hhere.
  - destruct (Js.startsWith (String c s) p) eqn:Hhere.
    + right. exists "", (Js.drop (String.length p) (String c s)).
      split; [now apply startsWith_split|].
      split; [cbn [Js.replace]; now rewrite Hhere|].
      intros. cbn. lia.
    + destruct IH as [[Hnone Hsame] | (pre & post & Hs & Hrep & Hmin)].
      * left. split; [cbn [Js.includes]; now rewrite Hhere, Hnone|].
        cbn [Js.replace]. now rewrite Hhere, Hsame.
      * right. exists (String c pre), post.
        split; [now rewrite string_app_cons, <- Hs|].
        split; [cbn [Js.replace]; now rewrite Hhere, Hrep|].
        intros pre' post' Hs'. destruct pre' as [|c' pre'].
        { exfalso. change ("" ++ p ++ post') with (p ++ post') in Hs'.
          rewrite Hs', startsWith_app in Hhere. discriminate. }
        rewrite string_app_cons in Hs'. injection Hs' as _ Hs'.
        cbn [String.length]. specialize (Hmin pre' post' Hs'). lia.
Qed.

(** X8. When the form has no [name] field, both revisions derive the
    name from the original filename by removing its first lower-case
    [.ifc] and nothing else: a filename without one (an upper-case
    extension, a file accepted by its MIME type) is kept whole, and of
    several occurrences only the first goes. *)
Theorem default_name_first_ifc_removed
    (body : gmap string string) (file : File.t) :
  body !! "name" = None ->
  exists name,
    ConversionOptions.name (options_A body file) = Some name
    /\ ConversionOptions.name (options_B body file) = Some name
    /\ ((Js.includes (File.originalname file) ".ifc" = false
         /\ name = File.originalname file)
        \/ exists pre post,
             File.originalname file = pre ++ ".ifc" ++ post
             /\ name = pre ++ post
             /\ forall pre' post',
                  File.originalname file = pre' ++ ".ifc" ++ post' ->
                  (String.length pre <= String.length pre')%nat).
Proof.
  intros Hname. exists (Js.replace (File.originalname file) ".ifc" "").
  unfold options_A, options_B. rewrite Hname. cbn.
  split; [reflexivity|]. split; [reflexivity|].
  destruct (replace_first_occurrence (File.originalname file) ".ifc")
    as [[Hnone Hsame] | (pre & post & Hs & Hrep & Hmin)].
  - left. now rewrite Hsame.
  - right. exists pre, post. now rewrite Hrep.
Qed.

Lemma default_name_first_ifc_removed_witness :
  let file := File.mk "ifc" "plan.ifc.ifc" "application/x-step" 3 "uploads/1-2-plan.ifc.ifc" in
  exists name,
    ConversionOptions.name (options_A ∅ file) = Some name
    /\ ConversionOptions.name (options_B ∅ file) = Some name
    /\ name = "plan.ifc".
Proof.
  intros file.
  destruct (default_name_first_ifc_removed ∅ file (lookup_empty "name"))
    as (name & HA & HB & _).
  exists name. split; [exact HA|]. split; [exact HB|].
  vm_compute in HA. now injection HA as <-.
Defined.

(** ** The conversion endpoint as a whole *)

Section Pipeline.

Variable P : Platform.

(** [deleteTempFile] touches the disk and the console only. *)
Lemma deleteTempFile_frame (path : string) (s : Frame.t) :
  let s' := fst (deleteTempFile P path s) in
  World.ifcConverter (Frame.world s') = World.ifcConverter (Frame.world s)
  /\ World.engine_log (Frame.world s') = World.engine_log (Frame.world s)
  /\ World.dirs (Frame.world s') = World.dirs (Frame.world s)
  /\ Frame.res s' = Frame.res s.
Proof.
  unfold deleteTempFile, fs_unlink. unfold_js. simpl.
  destruct (World.files (Frame.world s) !! path); simpl; auto.
  destruct (World.fault (Frame.world s) Unlink path) as [[]|]; simpl; auto.
Qed.

(** [errorHandler] touches the response and the console only. *)
Lemma errorHandler_frame (err : AppError.t) (s : Frame.t) :
  let s' := fst (errorHandler P err s) in
  World.ifcConverter (Frame.world s') = World.ifcConverter (Frame.world s)
  /\ World.engine_log (Frame.world s') = World.engine_log (Frame.world s)
  /\ World.dirs (Frame.world s') = World.dirs (Frame.world s)
  /\ World.files (Frame.world s') = World.files (Frame.world s)
  /\ World.fault (Frame.world s') = World.fault (Frame.world s)
  /\ Frame.filePath s' = Frame.filePath s.
Proof.
  unfold errorHandler. unfold_js. simpl.
  destruct non_production; simpl;
    destruct (String.eqb (AppError.name err) "MulterError"); simpl; auto 10;
    destruct (String.eqb (AppError.name err) "SyntaxError" && AppError.has_body err);
    simpl; auto 10.
Qed.

(** The answer of [errorHandler] to an error of the pipeline. *)
Lemma errorHandler_pipeline_error (err : AppError.t) (s : Frame.t) :
  pipeline_error err ->
  let r := Frame.res (fst (errorHandler P err s)) in
  (exists message, fault_shape r = (400, Some (JStr "fail"), Some (JStr message)))
  \/ fault_shape r = (500, Some (JStr "error"), Some (JStr "Internal server error")).
Proof.
  intros Herr. unfold errorHandler. unfold_js. simpl.
  destruct Herr as [Hname | [(Hname & Hcode & Hstatus & Hop) | (Hname & Hcode & Hstatus & Hop)]];
    rewrite Hname; simpl;
    destruct (non_production P); simpl; eauto;
    unfold statusCode_or_500; rewrite Hcode, Hstatus, Hop; simpl; eauto.
Qed.

(** The upload middleware leaves the converter, the engine log and the
    console alone, and raises errors of the pipeline only. *)
Lemma upload_single_world (raw : Upload.t) (s : Frame.t) :
  let s1 := fst (upload_single P "ifc" raw s) in
  World.engine_log (Frame.world s1) = World.engine_log (Frame.world s)
  /\ World.console (Frame.world s1) = World.console (Frame.world s)
  /\ Frame.filePath s1 = Frame.filePath s
  /\ match snd (upload_single P "ifc" raw s) with
     | Throw e => pipeline_error e /\ World.dirs (Frame.world s1) = World.dirs (Frame.world s)
                  \/ pipeline_error e /\ AppError.code e = Some "LIMIT_FILE_SIZE"
     | Ok _ => True
     end.
Proof.
  unfold upload_single.
  destruct (Upload.file_part raw) as [part|]; [|simpl; auto].
  destruct (negb (String.eqb (Upload.fieldname part) "ifc"));
    [simpl; unfold pipeline_error; simpl; naive_solver|].
  destruct (negb (fileFilter (Upload.mimetype part) (Upload.originalname part)));
    [simpl; unfold pipeline_error; simpl; naive_solver|].
  unfold storage_destination, ensureDirectoryExists, fs_existsSync, fs_mkdir, fs_writeFile.
  unfold_js. simpl.
  match goal with |- context [if negb ?b then _ else _] => destruct (negb b) end; simpl.
  - destruct (World.fault (Frame.world s) Mkdir uploadDir) as [[]|]; simpl;
      [unfold pipeline_error; simpl; naive_solver ..|].
    destruct (limits_fileSize <? _); simpl; unfold pipeline_error; simpl; naive_solver.
  - destruct (limits_fileSize <? _); simpl; unfold pipeline_error; simpl; naive_solver.
Qed.

(** Both revisions: the conversion step with [errorHandler] as its
    catch, then one [deleteTempFile] on the recorded path, if any. *)
Lemma convert_route_unfold
    (route : Request.t -> (AppError.t -> M unit) -> M unit)
    (options_of : gmap string string -> File.t -> ConversionOptions.t)
    (req : Request.t) (s : Frame.t) :
  revision P route options_of ->
  fst (route req (errorHandler P) s)
  = let m := fst (try_catch (processConversion P options_of req)
                            (fun error => errorHandler P error)
                            (Frame.mk (Frame.world s) (Frame.res s) None)) in
    match Frame.filePath m with
    | Some path => if Js.truthy path then fst (deleteTempFile P path m) else m
    | None => m
    end.
Proof.
  intros [[-> ->] | [-> ->]];
    unfold convert_route_A, convert_route_B, bind, let_filePath_null, try_finally,
      get_filePath; simpl;
    destruct (try_catch _ _ _) as [m r]; simpl;
    destruct (Frame.filePath m) as [path|]; simpl; try reflexivity;
    destruct (Js.truthy path); simpl; try reflexivity.
  - destruct (deleteTempFile P path m) as [s'' [[]|e]]; reflexivity.
  - pose proof (deleteTempFile_resolves P path m) as Hok.
    unfold try_catch.
    destruct (deleteTempFile P path m) as [s'' [[]|e]]; simpl in *;
      [reflexivity|discriminate].
Qed.

(** The conversion step raises errors of the pipeline only, and leaves
    the response alone when it raises one. *)
Lemma processConversion_throws
    (options_of : gmap string string -> File.t -> ConversionOptions.t)
    (req : Request.t) (s : Frame.t) (e : AppError.t) :
  snd (processConversion P options_of req s) = Throw e ->
  pipeline_error e /\ Frame.res (fst (processConversion P options_of req s)) = Frame.res s.
Proof.
  unfold processConversion.
  destruct (Request.file req) as [file|];
    [|simpl; intros [= <-]; unfold pipeline_error; simpl; naive_solver].
  unfold readFileAsUint8Array, fs_readFile, ifcConverter_convert. unfold_js. simpl.
  destruct (World.files (Frame.world s) !! File.path file); simpl;
    [|intros [= <-]; unfold pipeline_error; simpl; naive_solver].
  destruct (World.fault (Frame.world s) ReadFile (File.path file)); simpl;
    [intros [= <-]; unfold pipeline_error; simpl; naive_solver|].
  unfold convert.
  destruct (IfcToFragmentsConverter.ifcImporter _) as [imp|]; simpl;
    [|intros [= <-]; unfold pipeline_error; simpl; naive_solver].
  destruct (process P _ _) as [out|error]; simpl;
    [discriminate|intros [= <-]; unfold pipeline_error; simpl; naive_solver].
Qed.

(** A conversion step that ends normally: the file was read back, the
    converter was Ready, the engine ran once on the file's content under
    the derived options and its output is the body. *)
Lemma processConversion_succeeds
    (options_of : gmap string string -> File.t -> ConversionOptions.t)
    (req : Request.t) (s : Frame.t) :
  snd (processConversion P options_of req s) = Ok tt ->
  exists file content engine data,
    Request.file req = Some file
    /\ World.files (Frame.world s) !! File.path file = Some content
    /\ state_of (World.ifcConverter (Frame.world s)) = Ready engine
    /\ process P (apply_settings (options_of (Request.body req) file) engine) content
       = Ok data
    /\ state_of (World.ifcConverter (Frame.world (fst (processConversion P options_of req s))))
       = Ready (apply_settings (options_of (Request.body req) file) engine)
    /\ World.engine_log (Frame.world (fst (processConversion P options_of req s)))
       = (World.engine_log (Frame.world s)
          ++ [(apply_settings (options_of (Request.body req) file) engine, content)])%list
    /\ Res.statusCode (Frame.res (fst (processConversion P options_of req s)))
       = Res.statusCode (Frame.res s)
    /\ Res.body (Frame.res (fst (processConversion P options_of req s)))
       = Some (Res.Buffer data).
Proof.
  unfold processConversion.
  destruct (Request.file req) as [file|]; [|discriminate].
  unfold readFileAsUint8Array, fs_readFile, ifcConverter_convert. unfold_js. simpl.
  destruct (World.files (Frame.world s) !! File.path file) as [content|] eqn:Efile; simpl;
    [|discriminate].
  destruct (World.fault (Frame.world s) ReadFile (File.path file)); simpl; [discriminate|].
  unfold convert, state_of.
  destruct (IfcToFragmentsConverter.ifcImporter _) as [imp|]; simpl; [|discriminate].
  destruct (process P _ _) as [out|error] eqn:Eout; simpl; [|discriminate].
  intros _. exists file, content, imp, out. repeat split; auto.
Qed.

End Pipeline.





(** X11. A request answered with a binary body found the converter
    Ready and ran the engine exactly once, on the bytes of the uploaded
    file as they were staged and read back, under the converter's
    settings with [COORDINATE_TO_ORIGIN] set to the request's derived
    flag; the body is the engine's output, the status is 200, and the
    [Content-Length] header and the metadata's [size] are both the
    body's byte count.  The converter keeps that setting afterwards. *)
Theorem successful_request_runs_engine_once
    (P : Platform) (route : Request.t -> (AppError.t -> M unit) -> M unit)
    (options_of : gmap string string -> File.t -> ConversionOptions.t)
    (raw : Upload.t) (w : World.t) (data : bytes) :
  revision P route options_of ->
  Res.body (snd (serve (post_convert P route raw) w)) = Some (Res.Buffer data) ->
  exists part engine imp,
    Upload.file_part raw = Some part
    /\ state_of (World.ifcConverter w) = Ready engine
    /\ IfcImporter.webIfcSettings imp
       = <[ "COORDINATE_TO_ORIGIN" := SBool (coordinateToOrigin_of (Upload.fields raw)) ]>
           (IfcImporter.webIfcSettings engine)
    /\ process P imp (Upload.content part) = Ok data
    /\ World.engine_log (fst (serve (post_convert P route raw) w))
       = (World.engine_log w ++ [(imp, Upload.content part)])%list
    /\ state_of (World.ifcConverter (fst (serve (post_convert P route raw) w))) = Ready imp
    /\ Res.statusCode (snd (serve (post_convert P route raw) w)) = 200
    /\ Res.headers (snd (serve (post_convert P route raw) w)) !! "Content-Length"
       = Some (Res.Text (Js.toString (Z.of_nat (List.length data))))
    /\ metadata_of (snd (serve (post_convert P route raw) w)) ["size"]
       = Some (JNum (Z.of_nat (List.length data))).
Proof.
  intros Hrev Hbody.
  destruct (post_convert_success P route options_of raw w data Hrev Hbody)
    as (part0 & file0 & _ & _ & data' & Hbody' & _ & _ & Hlen & Hmeta).
  assert (data' = data) as -> by congruence.
  assert (Hsize : metadata_of (snd (serve (post_convert P route raw) w)) ["size"]
                  = Some (JNum (Z.of_nat (List.length data)))).
  { unfold metadata_of. rewrite Hmeta.
    destruct Hrev as [[_ ->] | [_ ->]]; reflexivity. }
  clear Hbody' Hmeta.
  revert Hbody Hlen Hsize. unfold serve, post_convert. simpl.
  pose proof (upload_single_disk P raw (Frame.start w)) as Hdisk.
  pose proof (upload_single_world P raw (Frame.start w)) as Hworld.
  simpl in Hdisk, Hworld.
  destruct (upload_single P "ifc" raw (Frame.start w)) as [s1 [req|error]]; simpl in *.
  - destruct Hdisk as (_ & Hres & Hconv & Hfields & Hfile).
    destruct Hworld as (Hlog & _ & _ & _).
    rewrite (convert_route_unfold P route options_of req s1 Hrev).
    pose proof (processConversion_succeeds P options_of req
                  (Frame.mk (Frame.world s1) (Frame.res s1) None)) as Hok.
    pose proof (processConversion_throws P options_of req
                  (Frame.mk (Frame.world s1) (Frame.res s1) None)) as Hthrow.
    pose proof (processConversion_disk P options_of req
                  (Frame.mk (Frame.world s1) (Frame.res s1) None)) as Hpd.
    unfold try_catch. cbn zeta.
    destruct (processConversion P options_of req _) as [s2 [[]|error]]; simpl in *.
    + destruct (Hok eq_refl)
        as (file & content & engine & out & Hreq & Hread & Hready & Hproc & Hafter
            & Hlog2 & Hcode & Hout).
      rewrite Hreq in Hfile, Hpd.
      destruct Hfile as (part & Hpart & _ & Hpath & Hfiles).
      destruct Hpd as (_ & _ & Hfp). rewrite Hfp.
      assert (Htruthy : Js.truthy (File.path file) = true)
        by (rewrite Hpath; apply staged_path_truthy).
      rewrite Htruthy.
      destruct (deleteTempFile_frame P (File.path file) s2) as (Hc & Hl & _ & Hr).
      rewrite Hc, Hl, Hr, Hout.
      intros [= <-] Hlen Hsize.
      rewrite Hfiles, lookup_insert_eq in Hread. injection Hread as <-.
      rewrite Hconv in Hready. rewrite Hfields in *.
      exists part, engine, (apply_settings (options_of (Upload.fields raw) file) engine).
      split; [exact Hpart|]. split; [exact Hready|].
      split; [destruct Hrev as [[_ ->] | [_ ->]]; reflexivity|].
      split; [exact Hproc|]. split; [now rewrite Hlog2, Hlog|].
      split; [exact Hafter|]. split; [now rewrite Hcode, Hres|].
      split; [exact Hlen|exact Hsize].
    + destruct (errorHandler_res P error s2) as (_ & j & Hj).
      destruct (errorHandler_frame P error s2) as (_ & _ & _ & _ & _ & Hfp).
      destruct (Frame.filePath (fst (errorHandler P error s2))) as [path|].
      * destruct (Js.truthy path).
        -- rewrite deleteTempFile_res, Hj. discriminate.
        -- rewrite Hj. discriminate.
      * rewrite Hj. discriminate.
  - destruct (errorHandler_res P error s1) as (_ & j & Hj). rewrite Hj. discriminate.
Qed.

Lemma successful_request_runs_engine_once_witness :
  let served :=
    serve (post_convert test_platform (convert_route_A test_platform)
             (sample_upload "sample.ifc" {[ "coordinateToOrigin" := "false" ]}))
      (world_with ready_converter) in
  exists imp,
    World.engine_log (fst served) = [(imp, [Byte.x49; Byte.x46; Byte.x43])]
    /\ IfcImporter.webIfcSettings imp !! "COORDINATE_TO_ORIGIN" = Some (SBool false).
Proof.
  intros served.
  destruct (successful_request_runs_engine_once test_platform (convert_route_A test_platform)
              options_A (sample_upload "sample.ifc" {[ "coordinateToOrigin" := "false" ]})
              (world_with ready_converter) mock_output
              (or_introl (conj eq_refl eq_refl)) eq_refl)
    as (part & engine & imp & Hpart & _ & Hsettings & _ & Hlog & _).
  exists imp. injection Hpart as <-. split; [exact Hlog|].
  rewrite Hsettings. apply lookup_insert_eq.
Defined.

(** ** Fault translation, continued *)


(** ** Staging paths *)

Lemma uint_digits_dashless (d : Decimal.uint) : dashless (NilEmpty.string_of_uint d).
Proof. induction d; simpl; (exact I || (split; [discriminate|assumption])). Qed.

Lemma toString_dashless (n : Z) : 0 <= n -> dashless (Js.toString n).
Proof.
  intros H. unfold Js.toString. destruct n as [|p|p]; [simpl; split; [discriminate|exact I]| |lia].
  unfold Z.to_int, NilZero.string_of_int, NilZero.string_of_uint.
  destruct (Pos.to_uint p) eqn:E; try (rewrite <- E; apply uint_digits_dashless).
  simpl. split; [discriminate|exact I].
Qed.

Lemma toString_injective (m n : Z) : Js.toString m = Js.toString n -> m = n.
Proof.
  unfold Js.toString. intros H.
  assert (Hnn : forall z, Z.to_int z <> Decimal.Pos Decimal.Nil
                          /\ Z.to_int z <> Decimal.Neg Decimal.Nil).
  { intros [|p|p]; simpl; split; try discriminate;
      intros [= E]; revert E; apply DecimalPos.Unsigned.to_uint_nonnil. }
  apply (f_equal NilZero.int_of_string) in H.
  rewrite !NilZero.isi in H by apply Hnn.
  injection H as H. now apply DecimalZ.to_int_inj.
Qed.

(** Two texts that agree after a dashless prefix and a dash have the
    same prefix and the same rest. *)
Lemma split_at_first_dash (a a' rest rest' : string) :
  dashless a -> dashless a' ->
  a ++ "-" ++ rest = a' ++ "-" ++ rest' ->
  a = a' /\ rest = rest'.
Proof.
  revert a'. induction a as [|c a IH]; intros [|c' a'] Ha Ha' H.
  - injection H as H. auto.
  - rewrite string_app_cons in H. injection H as Hc _.
    destruct Ha' as [Hne _]. congruence.
  - rewrite string_app_cons in H. injection H as Hc _.
    destruct Ha as [Hne _]. congruence.
  - rewrite !string_app_cons in H. injection H as -> H.
    destruct Ha as [_ Ha]. destruct Ha' as [_ Ha'].
    destruct (IH a' Ha Ha' H) as [-> ->]. auto.
Qed.

Lemma string_app_inv_head (a b b' : string) : a ++ b = a ++ b' -> b = b'.
Proof.
  induction a as [|c a IH]; [auto|].
  rewrite !string_app_cons. intros [= H]. auto.
Qed.

Lemma string_app_assoc (a b c : string) : (a ++ b) ++ c = a ++ (b ++ c).
Proof.
  induction a as [|x a IH]; [reflexivity|].
  rewrite !string_app_cons. now rewrite IH.
Qed.

(** X13. Two uploads are staged at the same path only when the clock
    reading, the random number and the original filename all coincide:
    for readings that are not negative, the staging path determines the
    three of them. *)
Theorem staging_path_determines_upload
    (P P' : Platform) (originalname originalname' : string) :
  0 <= Date_now P -> 0 <= Date_now P' ->
  0 <= random_1e9 P -> 0 <= random_1e9 P' ->
  uploadDir ++ storage_filename P originalname
  = uploadDir ++ storage_filename P' originalname' ->
  Date_now P = Date_now P'
  /\ random_1e9 P = random_1e9 P'
  /\ originalname = originalname'.
Proof.
  intros Hd Hd' Hr Hr' H. apply string_app_inv_head in H.
  unfold storage_filename in H. cbv zeta in H.
  rewrite !string_app_assoc in H.
  apply split_at_first_dash in H as [Hnow H]; try now apply toString_dashless.
  apply split_at_first_dash in H as [Hrnd H]; try now apply toString_dashless.
  split; [now apply toString_injective|]. split; [now apply toString_injective|exact H].
Qed.

Lemma staging_path_determines_upload_witness :
  uploadDir ++ storage_filename test_platform "a-b.ifc"
  = uploadDir ++ storage_filename (mock_platform None) "a-b.ifc"
  /\ Date_now test_platform = Date_now (mock_platform None).
Proof.
  split; [reflexivity|].
  apply (staging_path_determines_upload test_platform (mock_platform None)
           "a-b.ifc" "a-b.ifc"); try discriminate. reflexivity.
Defined.

(** ** Requests served one after the other *)

Section Sequential.

Variable P : Platform.

Lemma apply_settings_defined (options : ConversionOptions.t) (b : bool) (e : IfcImporter.t) :
  ConversionOptions.coordinateToOrigin options = Some b ->
  apply_settings options e = apply_settings (route_options "" b) e.
Proof. intros H. unfold apply_settings. now rewrite H. Qed.

Lemma apply_settings_twice (options options' : ConversionOptions.t) (b : bool)
    (e : IfcImporter.t) :
  ConversionOptions.coordinateToOrigin options' = Some b ->
  apply_settings options' (apply_settings options e) = apply_settings options' e.
Proof.
  intros H. unfold apply_settings. rewrite H.
  destruct (ConversionOptions.coordinateToOrigin options); [|reflexivity].
  simpl. now rewrite insert_insert_eq.
Qed.

Lemma same_service_refl (w : World.t) : same_service w w.
Proof.
  unfold same_service. repeat split.
  destruct (IfcToFragmentsConverter.ifcImporter (World.ifcConverter w)); [|exact I].
  intros b. reflexivity.
Qed.

Lemma same_service_trans (w1 w2 w3 : World.t) :
  same_service w1 w2 -> same_service w2 w3 -> same_service w1 w3.
Proof.
  unfold same_service. intros (Hf & Hd & Hp & He) (Hf' & Hd' & Hp' & He').
  split; [congruence|]. split; [congruence|]. split; [congruence|].
  destruct (IfcToFragmentsConverter.ifcImporter (World.ifcConverter w1)),
    (IfcToFragmentsConverter.ifcImporter (World.ifcConverter w2)),
    (IfcToFragmentsConverter.ifcImporter (World.ifcConverter w3)); try tauto.
  intros b. now rewrite (He b), (He' b).
Qed.

(** The response that [errorHandler] writes depends on the error and on
    the response so far, not on the world. *)
Lemma errorHandler_res_world (err : AppError.t) (s s' : Frame.t) :
  Frame.res s = Frame.res s' ->
  Frame.res (fst (errorHandler P err s)) = Frame.res (fst (errorHandler P err s')).
Proof.
  intros H. unfold errorHandler. unfold_js. simpl.
  destruct (non_production P); simpl;
    destruct (String.eqb (AppError.name err) "MulterError"); simpl; rewrite ?H; auto;
    destruct (String.eqb (AppError.name err) "SyntaxError" && AppError.has_body err);
    simpl; rewrite ?H; auto.
Qed.

Lemma upload_single_dir_ok (raw : Upload.t) (s : Frame.t) :
  upload_dir_ok (Frame.world (fst (upload_single P "ifc" raw s)))
  = upload_dir_ok (Frame.world s).
Proof.
  unfold upload_single.
  destruct (Upload.file_part raw) as [part|]; [|reflexivity].
  destruct (negb (String.eqb (Upload.fieldname part) "ifc")); [reflexivity|].
  destruct (negb (fileFilter (Upload.mimetype part) (Upload.originalname part)));
    [reflexivity|].
  unfold storage_destination, ensureDirectoryExists, fs_existsSync, fs_mkdir, fs_writeFile.
  unfold_js. unfold upload_dir_ok. simpl.
  destruct (bool_decide (uploadDir ∈ World.dirs (Frame.world s))) eqn:Edir; simpl.
  - destruct (limits_fileSize <? _); simpl; rewrite Edir; reflexivity.
  - destruct (bool_decide (is_Some (World.files (Frame.world s) !! uploadDir))) eqn:Efile;
      simpl.
    + destruct (limits_fileSize <? _); simpl; rewrite Edir; simpl; [now rewrite Efile|].
      apply bool_decide_eq_true in Efile.
      rewrite bool_decide_eq_true_2; [reflexivity|].
      destruct (decide (uploadDir ++ storage_filename P (Upload.originalname part)
                        = uploadDir)) as [->|Hne].
      * rewrite lookup_insert_eq. eauto.
      * now rewrite lookup_insert_ne.
    + destruct (World.fault (Frame.world s) Mkdir uploadDir) eqn:Efault; simpl.
      * now rewrite Edir, Efile, Efault.
      * destruct (limits_fileSize <? _); simpl;
          rewrite bool_decide_eq_true_2 by set_solver; reflexivity.
Qed.

(** Worlds that serve alike give [upload.single] the same outcome. *)
Lemma upload_single_alike (raw : Upload.t) (s s' : Frame.t) :
  same_service (Frame.world s) (Frame.world s') ->
  snd (upload_single P "ifc" raw s) = snd (upload_single P "ifc" raw s').
Proof.
  intros (Hfault & Hdir & _).
  unfold upload_single.
  destruct (Upload.file_part raw) as [part|]; [|reflexivity].
  destruct (negb (String.eqb (Upload.fieldname part) "ifc")); [reflexivity|].
  destruct (negb (fileFilter (Upload.mimetype part) (Upload.originalname part)));
    [reflexivity|].
  unfold storage_destination, ensureDirectoryExists, fs_existsSync, fs_mkdir, fs_writeFile.
  unfold_js. unfold upload_dir_ok in Hdir. rewrite <- Hfault in Hdir. simpl.
  destruct (bool_decide (uploadDir ∈ World.dirs (Frame.world s))
            || bool_decide (is_Some (World.files (Frame.world s) !! uploadDir)));
    destruct (bool_decide (uploadDir ∈ World.dirs (Frame.world s'))
              || bool_decide (is_Some (World.files (Frame.world s') !! uploadDir)));
    simpl in *; rewrite <- ?Hfault;
    destruct (World.fault (Frame.world s) Mkdir uploadDir); simpl in *;
    try discriminate; try reflexivity;
    destruct (limits_fileSize <? Z.of_nat (List.length (Upload.content part)));
    reflexivity.
Qed.

Lemma same_service_frame (w0 w w' : World.t) :
  same_service w0 w ->
  World.fault w' = World.fault w ->
  upload_dir_ok w' = upload_dir_ok w ->
  World.ifcConverter w' = World.ifcConverter w ->
  same_service w0 w'.
Proof.
  unfold same_service. intros (Hf & Hd & Hp & He) Hf' Hd' Hc'.
  rewrite Hf', Hd', Hc'. auto.
Qed.

Lemma staged_path_not_dir (originalname : string) :
  uploadDir ++ storage_filename P originalname <> uploadDir.
Proof.
  intros H. apply (f_equal String.length) in H.
  unfold storage_filename in H. cbv zeta in H.
  rewrite !string_length_app in H. simpl in H. lia.
Qed.

(** Worlds that serve alike give the conversion step the same outcome
    and the same response, when the staged file reads the same. *)
Lemma processConversion_alike
    (options_of : gmap string string -> File.t -> ConversionOptions.t)
    (req : Request.t) (s s' : Frame.t) :
  (forall body file, exists b,
      ConversionOptions.coordinateToOrigin (options_of body file) = Some b) ->
  same_service (Frame.world s) (Frame.world s') ->
  Frame.res s = Frame.res s' ->
  (forall file, Request.file req = Some file ->
                World.files (Frame.world s) !! File.path file
                = World.files (Frame.world s') !! File.path file) ->
  snd (processConversion P options_of req s) = snd (processConversion P options_of req s')
  /\ Frame.res (fst (processConversion P options_of req s))
     = Frame.res (fst (processConversion P options_of req s')).
Proof.
  intros Hopt (Hfault & _ & _ & Heng) Hres Hfiles.
  unfold processConversion.
  destruct (Request.file req) as [file|]; [|simpl; auto].
  specialize (Hfiles file eq_refl).
  unfold readFileAsUint8Array, fs_readFile, ifcConverter_convert. unfold_js. simpl.
  rewrite <- Hfiles, <- Hfault.
  destruct (World.files (Frame.world s) !! File.path file) as [content|]; simpl; auto.
  destruct (World.fault (Frame.world s) ReadFile (File.path file)); simpl; auto.
  unfold convert.
  destruct (IfcToFragmentsConverter.ifcImporter (World.ifcConverter (Frame.world s)))
    as [e|],
    (IfcToFragmentsConverter.ifcImporter (World.ifcConverter (Frame.world s')))
    as [e'|]; try contradiction; simpl; auto.
  destruct (Hopt (Request.body req) file) as [b Hb].
  rewrite (apply_settings_defined _ b e Hb), (apply_settings_defined _ b e' Hb), (Heng b).
  destruct (process P _ content); simpl; rewrite ?Hres; auto.
Qed.

(** The conversion step leaves a world that serves like the one it
    found, with the same files and directories. *)
Lemma processConversion_service
    (options_of : gmap string string -> File.t -> ConversionOptions.t)
    (req : Request.t) (s : Frame.t) :
  let s' := fst (processConversion P options_of req s) in
  same_service (Frame.world s) (Frame.world s')
  /\ World.dirs (Frame.world s') = World.dirs (Frame.world s).
Proof.
  unfold processConversion.
  destruct (Request.file req) as [file|];
    [|simpl; split; [apply same_service_refl|reflexivity]].
  unfold readFileAsUint8Array, fs_readFile, ifcConverter_convert. unfold_js. simpl.
  destruct (World.files (Frame.world s) !! File.path file) as [content|]; simpl;
    [|split; [apply same_service_refl|reflexivity]].
  destruct (World.fault (Frame.world s) ReadFile (File.path file)); simpl;
    [split; [apply same_service_refl|reflexivity]|].
  unfold convert.
  destruct (IfcToFragmentsConverter.ifcImporter (World.ifcConverter (Frame.world s)))
    as [e|] eqn:Ee; simpl.
  - assert (Hgoal : forall options,
               same_up_to_override e (apply_settings options e)).
    { intros options b. symmetry. now apply (apply_settings_twice options _ b). }
    destruct (process P _ content); simpl; (split; [|reflexivity]);
      unfold same_service, upload_dir_ok; simpl; rewrite Ee; auto.
  - split; [|reflexivity]. unfold same_service, upload_dir_ok; simpl. rewrite Ee. auto.
Qed.

Lemma revision_defines_override
    (route : Request.t -> (AppError.t -> M unit) -> M unit)
    (options_of : gmap string string -> File.t -> ConversionOptions.t) :
  revision P route options_of ->
  forall body file, exists b,
    ConversionOptions.coordinateToOrigin (options_of body file) = Some b.
Proof. intros [[_ ->] | [_ ->]] body file; eexists; reflexivity. Qed.

(** The response to a request is the same in worlds that serve alike. *)
Lemma response_respects_service
    (route : Request.t -> (AppError.t -> M unit) -> M unit)
    (options_of : gmap string string -> File.t -> ConversionOptions.t)
    (raw : Upload.t) (w w' : World.t) :
  revision P route options_of ->
  same_service w w' ->
  snd (serve (post_convert P route raw) w) = snd (serve (post_convert P route raw) w').
Proof.
  intros Hrev Hsame. unfold serve, post_convert. simpl.
  pose proof (upload_single_alike raw (Frame.start w) (Frame.start w') Hsame) as Hout.
  pose proof (upload_single_disk P raw (Frame.start w)) as Hd.
  pose proof (upload_single_disk P raw (Frame.start w')) as Hd'.
  pose proof (upload_single_dir_ok raw (Frame.start w)) as Hok.
  pose proof (upload_single_dir_ok raw (Frame.start w')) as Hok'.
  simpl in Hd, Hd', Hok, Hok'.
  destruct (upload_single P "ifc" raw (Frame.start w)) as [s1 r1].
  destruct (upload_single P "ifc" raw (Frame.start w')) as [s1' r1'].
  simpl in *. subst r1'.
  destruct Hd as (Hf & Hr & Hc & Hrest). destruct Hd' as (Hf' & Hr' & Hc' & Hrest').
  assert (Hsame1 : same_service (Frame.world s1) (Frame.world s1')).
  { destruct Hsame as (Sf & Sd & Sp & Se). unfold same_service.
    rewrite Hf, Hf', Hok, Hok', Hc, Hc'. auto. }
  destruct r1 as [req|error].
  - rewrite !(convert_route_res P route options_of req _ Hrev).
    assert (Hfiles : forall file, Request.file req = Some file ->
                       World.files (Frame.world s1) !! File.path file
                       = World.files (Frame.world s1') !! File.path file).
    { intros file Hfile. destruct Hrest as (_ & Hrest). destruct Hrest' as (_ & Hrest').
      rewrite Hfile in Hrest, Hrest'.
      destruct Hrest as (part & Hpart & _ & _ & ->).
      destruct Hrest' as (part' & Hpart' & _ & _ & ->).
      rewrite !lookup_insert_eq. congruence. }
    destruct (processConversion_alike options_of req
                (Frame.mk (Frame.world s1) (Frame.res s1) None)
                (Frame.mk (Frame.world s1') (Frame.res s1') None)
                (revision_defines_override route options_of Hrev) Hsame1
                (eq_trans Hr (eq_sym Hr')) Hfiles) as (Hsnd & Hres).
    unfold try_catch.
    destruct (processConversion P options_of req (Frame.mk (Frame.world s1) _ None))
      as [s2 r2].
    destruct (processConversion P options_of req (Frame.mk (Frame.world s1') _ None))
      as [s2' r2'].
    simpl in *. subst r2'.
    destruct r2 as [[]|error]; [exact Hres|].
    now apply errorHandler_res_world.
  - apply errorHandler_res_world. congruence.
Qed.

(** Serving a request leaves a world that serves like the one before. *)
Lemma request_preserves_service
    (route : Request.t -> (AppError.t -> M unit) -> M unit)
    (options_of : gmap string string -> File.t -> ConversionOptions.t)
    (raw : Upload.t) (w : World.t) :
  revision P route options_of ->
  same_service w (fst (serve (post_convert P route raw) w)).
Proof.
  intros Hrev. unfold serve, post_convert. simpl.
  pose proof (upload_single_disk P raw (Frame.start w)) as Hd.
  pose proof (upload_single_dir_ok raw (Frame.start w)) as Hok.
  simpl in Hd, Hok.
  destruct (upload_single P "ifc" raw (Frame.start w)) as [s1 r1]. simpl in *.
  destruct Hd as (Hf & _ & Hc & Hrest).
  assert (Hsame1 : same_service w (Frame.world s1))
    by (apply (same_service_frame w w); auto using same_service_refl).
  destruct r1 as [req|error].
  - rewrite (convert_route_unfold P route options_of req s1 Hrev). cbv zeta.
    set (s0 := Frame.mk (Frame.world s1) (Frame.res s1) None).
    pose proof (processConversion_service options_of req s0) as Hps.
    pose proof (processConversion_disk P options_of req s0) as Hpd.
    simpl in Hps, Hpd.
    assert (Hm : let m := fst (try_catch (processConversion P options_of req)
                                         (fun error => errorHandler P error) s0) in
                 same_service w (Frame.world m)
                 /\ Frame.filePath m
                    = match Request.file req with
                      | Some file => Some (File.path file)
                      | None => None
                      end).
    { unfold try_catch.
      destruct (processConversion P options_of req s0) as [s2 [[]|error]]; simpl in *.
      - split; [|tauto]. apply (same_service_trans _ _ _ Hsame1). tauto.
      - destruct (errorHandler_frame P error s2) as (Ec & _ & Ed & Ef & Efa & Efp).
        split; [|rewrite Efp; tauto].
        apply (same_service_frame w (Frame.world s2));
          [apply (same_service_trans _ _ _ Hsame1); tauto|exact Efa| |exact Ec].
        unfold upload_dir_ok. now rewrite Ed, Ef, Efa. }
    cbv zeta in Hm. destruct Hm as (Hsm & Hfp).
    destruct (try_catch _ _ s0) as [m rm]. simpl in *. rewrite Hfp.
    destruct (Request.file req) as [file|]; [|exact Hsm].
    destruct Hrest as (_ & part & _ & _ & Hpath & _).
    rewrite Hpath, staged_path_truthy.
    destruct (deleteTempFile_frame P (uploadDir ++ storage_filename P (Upload.originalname part)) m)
      as (Dc & _ & Dd & _).
    apply (same_service_frame w (Frame.world m)); auto using deleteTempFile_fault.
    unfold upload_dir_ok.
    rewrite Dd, deleteTempFile_fault, deleteTempFile_files.
    destruct (World.fault (Frame.world m) Unlink _); [reflexivity|].
    rewrite lookup_delete_ne by apply staged_path_not_dir. reflexivity.
  - destruct (errorHandler_frame P error s1) as (Ec & _ & Ed & Ef & Efa & _).
    apply (same_service_frame w (Frame.world s1)); auto.
    unfold upload_dir_ok. now rewrite Ed, Ef, Efa.
Qed.

Lemma serve_all_preserves_service
    (route : Request.t -> (AppError.t -> M unit) -> M unit)
    (options_of : gmap string string -> File.t -> ConversionOptions.t)
    (raws : list Upload.t) (w : World.t) :
  revision P route options_of ->
  same_service w (serve_all P route raws w).
Proof.
  intros Hrev. revert w. induction raws as [|raw rest IH]; intros w; simpl.
  - apply same_service_refl.
  - eapply same_service_trans; [|apply IH].
    now apply (request_preserves_service route options_of).
Qed.

End Sequential.

(** X14. Served one at a time, requests do not influence one another's
    responses: whatever requests were served before (accepted or
    rejected, converted or failed, with any options), the response to a
    request is the one it would get in the world as it was at the
    start.  In particular the [coordinateToOrigin] of an earlier request
    never leaks into a later one, because each request sets it anew. *)
Theorem earlier_requests_leave_response_unchanged
    (P : Platform) (route : Request.t -> (AppError.t -> M unit) -> M unit)
    (options_of : gmap string string -> File.t -> ConversionOptions.t)
    (earlier : list Upload.t) (raw : Upload.t) (w : World.t) :
  revision P route options_of ->
  snd (serve (post_convert P route raw) (serve_all P route earlier w))
  = snd (serve (post_convert P route raw) w).
Proof.
  intros Hrev. symmetry.
  apply (response_respects_service P route options_of); [exact Hrev|].
  now apply (serve_all_preserves_service P route options_of).
Qed.

Lemma earlier_requests_leave_response_unchanged_witness :
  let earlier :=
    [ sample_upload "first.ifc" {[ "coordinateToOrigin" := "false" ]};
      sample_upload "notes.txt" ∅ ] in
  let raw := sample_upload "second.ifc" ∅ in
  snd (serve (post_convert test_platform (convert_route_A test_platform) raw)
         (serve_all test_platform (convert_route_A test_platform) earlier
            (world_with ready_converter)))
  = snd (serve (post_convert test_platform (convert_route_A test_platform) raw)
           (world_with ready_converter)).
Proof.
  intros earlier raw.
  apply (earlier_requests_leave_response_unchanged test_platform
           (convert_route_A test_platform) options_A earlier raw
           (world_with ready_converter)).
  left. split; reflexivity.
Defined.

Section Sequences.

Variable P : Platform.

(** One request, when no [unlink] is refused: the disk afterwards is the
    disk before, or the disk before without the staged path. *)
Lemma request_disk
    (route : Request.t -> (AppError.t -> M unit) -> M unit)
    (options_of : gmap string string -> File.t -> ConversionOptions.t)
    (raw : Upload.t) (w : World.t) :
  revision P route options_of ->
  (forall path, World.fault w Unlink path = None) ->
  let w' := fst (serve (post_convert P route raw) w) in
  World.fault w' = World.fault w
  /\ (World.files w' = World.files w
      \/ exists path, World.files w' = delete path (World.files w)).
Proof.
  intros Hrev Hfault. unfold serve, post_convert. simpl.
  assert (Hroute : route = convert_route_A P \/ route = convert_route_B P)
    by (destruct Hrev as [[-> _] | [-> _]]; auto).
  pose proof (upload_single_disk P raw (Frame.start w)) as Hd. simpl in Hd.
  destruct (upload_single P "ifc" raw (Frame.start w)) as [s1 [req|error]]; simpl in *.
  - destruct Hd as (Hf & _ & _ & _ & Hfile).
    destruct (Request.file req) as [file|] eqn:Efile.
    + destruct Hfile as (part & _ & _ & Hpath & Hfiles).
      assert (Htruthy : Js.truthy (File.path file) = true)
        by (rewrite Hpath; apply staged_path_truthy).
      destruct (convert_route_ends_with_delete P route req file s1 Hroute Efile Htruthy)
        as (s' & -> & Hf' & Hfa').
      rewrite deleteTempFile_fault, deleteTempFile_files, Hfa', Hf, Hfault.
      split; [reflexivity|]. right. exists (File.path file).
      now rewrite Hf', Hfiles, delete_insert_eq.
    + destruct Hfile as (_ & Hfiles).
      rewrite (convert_route_without_file P route req s1 Hroute Efile).
      split; [|left; exact Hfiles].
      rewrite (convert_route_unfold P route options_of req s1 Hrev). cbv zeta.
      pose proof (processConversion_disk P options_of req
                    (Frame.mk (Frame.world s1) (Frame.res s1) None)) as Hpd.
      simpl in Hpd. rewrite Efile in Hpd. unfold try_catch.
      destruct (processConversion P options_of req _) as [s2 [[]|e]]; simpl in *.
      * destruct Hpd as (_ & Hfa & ->). congruence.
      * destruct (errorHandler_frame P e s2) as (_ & _ & _ & _ & Efa & Efp).
        destruct Hpd as (_ & Hfa & Hfp). rewrite Efp, Hfp. congruence.
  - destruct Hd as (Hf & _ & _ & Hfiles).
    destruct (errorHandler_frame P error s1) as (_ & _ & _ & Ef & Efa & _).
    split; [congruence|left; congruence].
Qed.

End Sequences.

(** X15. When the operating system refuses no [unlink], no sequence of
    requests leaves a file behind: a path that was not on disk before
    the first request is not on disk after the last, whatever the
    requests and their outcomes, and a file that was there is still
    there or was removed, never rewritten. *)
Theorem requests_leave_no_file
    (P : Platform) (route : Request.t -> (AppError.t -> M unit) -> M unit)
    (options_of : gmap string string -> File.t -> ConversionOptions.t)
    (raws : list Upload.t) (w : World.t) :
  revision P route options_of ->
  (forall path, World.fault w Unlink path = None) ->
  forall path,
    World.files (serve_all P route raws w) !! path = None
    \/ World.files (serve_all P route raws w) !! path = World.files w !! path.
Proof.
  intros Hrev. revert w.
  induction raws as [|raw rest IH]; intros w Hfault path; cbn [serve_all].
  - right. reflexivity.
  - pose proof (request_disk P route options_of raw w Hrev Hfault) as Hdisk.
    cbv zeta in Hdisk. destruct Hdisk as (Hfa & Hfiles).
    assert (Hfault' : forall p, World.fault (fst (serve (post_convert P route raw) w))
                                  Unlink p = None)
      by (intros p; rewrite Hfa; apply Hfault).
    destruct (IH _ Hfault' path) as [Hnone | Hsame]; [left; exact Hnone|].
    rewrite Hsame.
    destruct Hfiles as [-> | [gone ->]]; [right; reflexivity|].
    destruct (decide (gone = path)) as [->|Hne].
    + left. apply lookup_delete_eq.
    + right. now apply lookup_delete_ne.
Qed.

Lemma requests_leave_no_file_witness :
  let raws := [ sample_upload "a.ifc" ∅; sample_upload "b.txt" ∅; sample_upload "c.ifc" ∅ ] in
  World.files (serve_all failing_platform (convert_route_B failing_platform) raws
                 (world_with ready_converter))
  !! "uploads/1736937000000-123456789-a.ifc" = None.
Proof.
  intros raws.
  destruct (requests_leave_no_file failing_platform (convert_route_B failing_platform)
              options_B raws (world_with ready_converter)
              (or_intror (conj eq_refl eq_refl)) (fun _ => eq_refl)
              "uploads/1736937000000-123456789-a.ifc") as [H|H]; exact H.
Defined.

Lemma fault_shape_status (r : Res.t) (code : Z) (status message : option Js.Json) :
  fault_shape r = (code, status, message) -> Res.statusCode r = code.
Proof.
  unfold fault_shape. destruct (Res.body r) as [[j|b]|]; congruence.
Qed.

(** X16. No request initializes the converter: when it is
    Uninitialized, it still is after any sequence of requests, and none
    of them, nor any request after them, is answered 200. *)
Theorem uninitialized_service_never_succeeds
    (P : Platform) (route : Request.t -> (AppError.t -> M unit) -> M unit)
    (options_of : gmap string string -> File.t -> ConversionOptions.t)
    (earlier : list Upload.t) (raw : Upload.t) (w : World.t) :
  revision P route options_of ->
  state_of (World.ifcConverter w) = Uninitialized ->
  state_of (World.ifcConverter (serve_all P route earlier w)) = Uninitialized
  /\ Res.statusCode (snd (serve (post_convert P route raw) (serve_all P route earlier w)))
     <> 200.
Proof.
  intros Hrev Hun.
  pose proof (serve_all_preserves_service P route options_of earlier w Hrev) as Hsame.
  split.
  - destruct Hsame as (_ & _ & _ & He). apply state_of_uninitialized in Hun.
    apply state_of_uninitialized. rewrite Hun in He.
    destruct (IfcToFragmentsConverter.ifcImporter
                (World.ifcConverter (serve_all P route earlier w)));
      [contradiction|reflexivity].
  - rewrite <- (response_respects_service P route options_of raw w _ Hrev Hsame).
    unfold serve, post_convert. simpl.
    pose proof (upload_single_disk P raw (Frame.start w)) as Hdisk.
    pose proof (upload_single_world P raw (Frame.start w)) as Hworld.
    simpl in Hdisk, Hworld.
    assert (Hfault : forall e s,
               pipeline_error e ->
               Res.statusCode (Frame.res (fst (errorHandler P e s))) <> 200).
    { intros e s He.
      destruct (errorHandler_pipeline_error P e s He) as [[message H] | H];
        apply fault_shape_status in H; rewrite H; discriminate. }
    destruct (upload_single P "ifc" raw (Frame.start w)) as [s1 [req|error]]; simpl in *.
    + destruct Hdisk as (_ & _ & Hconv & _).
      rewrite (convert_route_res P route options_of req s1 Hrev).
      pose proof (processConversion_succeeds P options_of req
                    (Frame.mk (Frame.world s1) (Frame.res s1) None)) as Hok.
      pose proof (processConversion_throws P options_of req
                    (Frame.mk (Frame.world s1) (Frame.res s1) None)) as Hthrow.
      unfold try_catch.
      destruct (processConversion P options_of req _) as [s2 [[]|error]]; simpl in *.
      * destruct (Hok eq_refl) as (file & content & engine & data & _ & _ & Hready & _).
        rewrite Hconv in Hready. congruence.
      * apply Hfault. now apply (Hthrow error).
    + apply Hfault. destruct Hworld as (_ & _ & _ & Herr). tauto.
Qed.

Lemma uninitialized_service_never_succeeds_witness :
  Res.statusCode
    (snd (serve (post_convert test_platform (convert_route_A test_platform)
                   (sample_upload "sample.ifc" ∅))
            (serve_all test_platform (convert_route_A test_platform)
               [sample_upload "first.ifc" ∅] (world_with ifcConverter_initial))))
  <> 200.
Proof.
  apply (uninitialized_service_never_succeeds test_platform (convert_route_A test_platform)
           options_A [sample_upload "first.ifc" ∅] (sample_upload "sample.ifc" ∅)
           (world_with ifcConverter_initial) (or_introl (conj eq_refl eq_refl)) eq_refl).
Defined.

(** ** The example client *)

Lemma startsWith_weaken (s p q : string) :
  Js.startsWith s (p ++ q) = true -> Js.startsWith s p = true.
Proof.
  revert s. induction p as [|a p IH]; intros s H; [destruct s; reflexivity|].
  rewrite string_app_cons in H. destruct s as [|b s]; [discriminate|].
  cbn in *. destruct (Ascii.eqb a b); [now apply IH|discriminate].
Qed.

(** The usage lines of the script's header. *)
Example parseArgs_usage :
  Client.parseArgs flat_basename "http://localhost:3000"
    ["model.ifc"; "--name=my-building"]
  = Some (Client.mk (Some "model.ifc") (Some "model.frag") (Some "my-building")
            true "http://localhost:3000")
  /\ Client.parseArgs flat_basename "http://localhost:3000"
       ["model.ifc"; "output.frag"; "--no-coordinate-to-origin"]
     = Some (Client.mk (Some "model.ifc") (Some "output.frag") None
               false "http://localhost:3000")
  /\ Client.parseArgs flat_basename "http://localhost:3000" ["--name=x"] = None.
Proof. repeat split; vm_compute; reflexivity. Qed.

(** One turn of the loop of [parseArgs], on the flag and the input file. *)
Lemma parse_arg_turn (o : Client.options) (arg : string) :
  Client.coordinateToOrigin (Client.parse_arg o arg)
  = Client.coordinateToOrigin o && negb (String.eqb "--no-coordinate-to-origin" arg)
  /\ Client.inputFile (Client.parse_arg o arg)
     = if Client.falsy (Client.inputFile o) && negb (Js.startsWith arg "--")
       then Some arg else Client.inputFile o.
Proof.
  unfold Client.parse_arg.
  destruct (Js.startsWith arg "--name=") eqn:Ename.
  { rewrite (startsWith_weaken arg "--" "name=" Ename).
    destruct (String.eqb_spec "--no-coordinate-to-origin" arg) as [<-|]; [discriminate Ename|].
    simpl. now rewrite andb_true_r, andb_false_r. }
  destruct (String.eqb_spec arg "--no-coordinate-to-origin") as [->|Hflagne].
  { simpl. now rewrite !andb_false_r. }
  assert (Hne : String.eqb "--no-coordinate-to-origin" arg = false)
    by (apply String.eqb_neq; congruence).
  rewrite Hne, andb_true_r.
  destruct (Js.startsWith arg "--api-url=") eqn:Eurl.
  { rewrite (startsWith_weaken arg "--" "api-url=" Eurl). simpl.
    now rewrite andb_false_r. }
  destruct (Js.startsWith arg "--"); simpl; [now rewrite andb_false_r|].
  rewrite andb_true_r.
  destruct (Client.falsy (Client.inputFile o)); [auto|].
  destruct (Client.falsy (Client.outputFile o)); auto.
Qed.

(** What the loop of [parseArgs] does to the input file and to the
    flag, from any state of the options. *)
Lemma parse_args_loop (args : list string) (o : Client.options) :
  let o' := fold_left Client.parse_arg args o in
  Client.coordinateToOrigin o'
  = Client.coordinateToOrigin o
    && negb (existsb (String.eqb "--no-coordinate-to-origin") args)
  /\ (Client.falsy (Client.inputFile o) = false ->
      Client.inputFile o' = Client.inputFile o)
  /\ (Client.falsy (Client.inputFile o) = true ->
      match find Client.positional args with
      | Some arg => Client.inputFile o' = Some arg
      | None => Client.falsy (Client.inputFile o') = true
      end).
Proof.
  revert o. induction args as [|arg rest IH]; intros o.
  - simpl. rewrite andb_true_r. auto.
  - cbn [fold_left existsb find]. cbv zeta in IH.
    destruct (IH (Client.parse_arg o arg)) as (Hflag & Hkeep & Hfind). clear IH.
    destruct (parse_arg_turn o arg) as [Hc Hi].
    rewrite Hc in Hflag. rewrite Hi in Hkeep, Hfind.
    split; [|split].
    + rewrite Hflag, negb_orb. symmetry. apply andb_assoc.
    + intros Hin. rewrite Hin in Hkeep. simpl in Hkeep. exact (Hkeep Hin).
    + intros Hin. clear Hflag Hc Hi. rewrite Hin in Hkeep, Hfind.
      unfold Client.positional at 1.
      destruct (Js.startsWith arg "--"); cbn [andb negb] in *; [now apply Hfind|].
      unfold Client.falsy at 1 in Hkeep. unfold Client.falsy at 1 in Hfind.
      destruct (Js.truthy arg); cbn [negb] in *; [now apply Hkeep|now apply Hfind].
Qed.

(** X17. [parseArgs] exits exactly when no argument is a file name (an
    argument that is not empty and does not start with [--]).
    Otherwise the input file is the first such argument, wherever the
    flags stand, both file names of the options it returns are set, and
    [coordinateToOrigin] is [false] exactly when
    [--no-coordinate-to-origin] is among the arguments. *)
Theorem parseArgs_reads_arguments
    (basename : string -> option string -> string) (API_BASE_URL : string)
    (args : list string) :
  match Client.parseArgs basename API_BASE_URL args with
  | None => find Client.positional args = None
  | Some o =>
      Client.inputFile o = find Client.positional args
      /\ Client.falsy (Client.inputFile o) = false
      /\ Client.falsy (Client.outputFile o) = false
      /\ Client.coordinateToOrigin o
         = negb (existsb (String.eqb "--no-coordinate-to-origin") args)
  end.
Proof.
  unfold Client.parseArgs. destruct args as [|arg rest]; [reflexivity|].
  set (args := arg :: rest). cbv zeta.
  destruct (parse_args_loop args (Client.mk None None None true API_BASE_URL))
    as (Hflag & _ & Hfind).
  specialize (Hfind eq_refl). cbv zeta in Hflag. cbn [Client.coordinateToOrigin andb] in Hflag.
  destruct (find Client.positional args) as [first|] eqn:Efind.
  - rewrite Hfind.
    assert (Htruthy : Js.truthy first = true).
    { apply find_some in Efind as [_ H]. unfold Client.positional in H.
      now apply andb_true_iff in H as [_ H]. }
    rewrite Htruthy. cbn [negb].
    destruct (Client.falsy (Client.outputFile _)) eqn:Eout.
    + cbn [Client.inputFile Client.outputFile Client.coordinateToOrigin].
      split; [reflexivity|]. unfold Client.falsy. rewrite Htruthy.
      split; [reflexivity|]. split; [|exact Hflag].
      destruct (basename first (Some ".ifc")); reflexivity.
    + split; [exact Hfind|]. rewrite Hfind. unfold Client.falsy at 1. rewrite Htruthy.
      auto.
  - destruct (Client.inputFile _) as [input|]; [|reflexivity].
    unfold Client.falsy in Hfind. now rewrite Hfind.
Qed.

(** X18. The form that the example client posts is never turned away
    by the upload filter, whatever the file is called, because it sends
    the file under the field [ifc] with the type [application/x-step];
    the server derives from it the [coordinateToOrigin] the client
    parsed; the client sends no empty [name], so both revisions of the
    route derive the same options from it. *)
Theorem client_form_accepted
    (basename : string -> option string -> string)
    (o : Client.options) (fileBuffer : bytes) :
  let raw := Client.main_form basename o fileBuffer in
  (exists part,
      Upload.file_part raw = Some part
      /\ Upload.fieldname part = "ifc"
      /\ Upload.content part = fileBuffer
      /\ fileFilter (Upload.mimetype part) (Upload.originalname part) = true)
  /\ coordinateToOrigin_of (Upload.fields raw) = Client.coordinateToOrigin o
  /\ Upload.fields raw !! "name"
     = (if Client.falsy (Client.name o) then None else Client.name o)
  /\ (forall file, options_A (Upload.fields raw) file = options_B (Upload.fields raw) file).
Proof.
  intros raw. subst raw. unfold Client.main_form, Client.convertIFC_form. simpl.
  assert (Hname : (<[ "coordinateToOrigin" := Client.String_of_bool (Client.coordinateToOrigin o) ]>
                     (if Client.falsy (Client.name o) then (∅ : gmap string string)
                      else <[ "name" := default "" (Client.name o) ]> ∅)) !! "name"
                  = if Client.falsy (Client.name o) then None else Client.name o).
  { rewrite lookup_insert_ne by discriminate.
    destruct (Client.name o) as [n|]; simpl; [|reflexivity].
    destruct (Js.truthy n); simpl; [apply lookup_insert_eq|reflexivity]. }
  split; [eexists; repeat split; reflexivity|].
  split; [|split; [exact Hname|]].
  - unfold coordinateToOrigin_of. rewrite lookup_insert_eq.
    destruct (Client.coordinateToOrigin o); reflexivity.
  - intros file. apply options_agree. rewrite Hname.
    destruct (Client.name o) as [n|]; simpl; [|discriminate].
    unfold Js.truthy. destruct (String.eqb_spec n ""); simpl; [discriminate|].
    congruence.
Qed.
